(** * Progress reporting of the Electron build-tools extension

    A shallow embedding of the build and sync command handlers of
    [extension.ts] (two revisions: the one that reads the child's
    standard output directly, and the one that relays it through a local
    socket) and of [generateSocketName] from [utils.ts].

    Conventions of the model:
    - a JavaScript string is a [string] whose characters are code units
      below 256, so the white space and line terminators that exist are
      TAB, LF, VT, FF, CR, SP and NBSP;
    - a JavaScript number is a [JS.Number]: a double that holds an
      integer, an infinity or [NaN]; from 2^53 up in magnitude not every
      integer is a double, and the results are rounded as the doubles are;
    - [progress.report], [showErrorMessage], [console.warn] and the calls
      that end a process are recorded in an effect log, in call order. *)

From Stdlib Require Import ZArith Lia Ascii String List Sorted.
From stdpp Require Import base option gmap strings pretty list fin_maps.
Import ListNotations.

Local Open Scope string_scope.
Local Open Scope Z_scope.

(** ** JavaScript string primitives *)

Module JS.

(** Code unit of a character. *)
Definition code (c : ascii) : Z := Z.of_N (N_of_ascii c).

(** WhiteSpace and LineTerminator code units, as [String.prototype.trim]
    and [parseInt] understand them. *)
Definition is_white_space (c : ascii) : bool :=
  let n := code c in
  (n =? 9) || (n =? 10) || (n =? 11) || (n =? 12) || (n =? 13)
  || (n =? 32) || (n =? 160).

(** LineTerminator: what [.] of a regular expression does not match. *)
Definition is_line_terminator (c : ascii) : bool :=
  let n := code c in (n =? 10) || (n =? 13).

Fixpoint trimStart (s : string) : string :=
  match s with
  | EmptyString => EmptyString
  | String c s' => if is_white_space c then trimStart s' else s
  end.

Fixpoint trimEnd (s : string) : string :=
  match s with
  | EmptyString => EmptyString
  | String c s' =>
      match trimEnd s' with
      | EmptyString =>
          if is_white_space c then EmptyString else String c EmptyString
      | t => String c t
      end
  end.

(** [s.trim()] *)
Definition trim (s : string) : string := trimEnd (trimStart s).

(** [s.split(sep)] for a separator of one character: the pieces between
    the occurrences of [sep]; never the empty array. *)
Fixpoint split (sep : ascii) (s : string) : list string :=
  match s with
  | EmptyString => [EmptyString]
  | String c s' =>
      if Ascii.eqb c sep then EmptyString :: split sep s'
      else match split sep s' with
           | piece :: pieces => String c piece :: pieces
           | [] => [String c EmptyString]
           end
  end.

(** [a[0]] on an array of strings ([undefined] cannot arise for the
    arrays [split] returns; the default stands for it). *)
Definition first (a : list string) : string := hd EmptyString a.

(** Value of a digit character in the largest radix, 36. *)
Definition digit_value (c : ascii) : option Z :=
  let n := code c in
  if (48 <=? n) && (n <=? 57) then Some (n - 48)
  else if (97 <=? n) && (n <=? 122) then Some (n - 87)
  else if (65 <=? n) && (n <=? 90) then Some (n - 55)
  else None.

Definition radix_digit (R : Z) (c : ascii) : option Z :=
  match digit_value c with
  | Some d => if d <? R then Some d else None
  | None => None
  end.

(** The longest prefix of radix-[R] digits, read as a number; [acc] is
    [None] until a digit has been read. *)
Fixpoint parse_digits (R : Z) (acc : option Z) (s : string) : option Z :=
  match s with
  | EmptyString => acc
  | String c s' =>
      match radix_digit R c with
      | Some d => parse_digits R (Some (R * default 0 acc + d)) s'
      | None => acc
      end
  end.

Definition strip_sign (s : string) : Z * string :=
  match s with
  | String "-" r => (-1, r)
  | String "+" r => (1, r)
  | _ => (1, s)
  end.

Definition strip_radix (s : string) : Z * string :=
  match s with
  | String "0" (String "x" r) => (16, r)
  | String "0" (String "X" r) => (16, r)
  | _ => (10, s)
  end.

(** The numbers: [Finite n] is the double of the integer value [n], and
    the doubles that hold no integer do not arise here. The zero with the
    sign bit set is not told from [0]: no comparison and no difference
    made below separates the two. *)
Inductive Number := NaN | Finite (n : Z) | Infinity (negative : bool).

(** The integer nearest to [n] that a double holds, were the exponent
    unbounded: [n] itself up to 2^53 in magnitude, and beyond that the
    nearest multiple of the power of two that leaves 53 bits, the even
    one of two that are equally near. *)
Definition round53 (n : Z) : Z :=
  let a := Z.abs n in
  if a <=? 2 ^ 53 then n
  else
    let e := Z.log2 a - 52 in
    let q := a / 2 ^ e in
    let r := a mod 2 ^ e in
    let half := 2 ^ (e - 1) in
    let q' := if (half <? r) || ((r =? half) && Z.odd q) then q + 1 else q in
    Z.sgn n * (q' * 2 ^ e).

(** The number of the integer value [n]: what the conversion of a numeral
    and the arithmetic on doubles make of an exact result [n]. *)
Definition of_Z (n : Z) : Number :=
  let r := round53 n in
  if 2 ^ 1024 <=? Z.abs r then Infinity (n <? 0) else Finite r.

(** [isNaN(a)] *)
Definition isNaN (a : Number) : bool :=
  match a with NaN => true | _ => false end.

(** [a > b] *)
Definition gt (a b : Number) : bool :=
  match a, b with
  | NaN, _ | _, NaN => false
  | Finite x, Finite y => y <? x
  | Finite _, Infinity negative => negative
  | Infinity negative, Finite _ => negb negative
  | Infinity na, Infinity nb => negb na && nb
  end.

(** [a - b] *)
Definition sub (a b : Number) : Number :=
  match a, b with
  | NaN, _ | _, NaN => NaN
  | Finite x, Finite y => of_Z (x - y)
  | Finite _, Infinity negative => Infinity (negb negative)
  | Infinity negative, Finite _ => Infinity negative
  | Infinity na, Infinity nb => if Bool.eqb na nb then NaN else Infinity na
  end.

(** [a + b] *)
Definition add (a b : Number) : Number :=
  match a, b with
  | NaN, _ | _, NaN => NaN
  | Finite x, Finite y => of_Z (x + y)
  | Finite _, Infinity negative => Infinity negative
  | Infinity negative, Finite _ => Infinity negative
  | Infinity na, Infinity nb => if Bool.eqb na nb then Infinity na else NaN
  end.

(** [parseInt(str)] with no radix argument: the number of the value that
    the longest run of digits has, [NaN] when there is no digit. *)
Definition parseInt (str : string) : Number :=
  let '(sign, s1) := strip_sign (trimStart str) in
  let '(R, s2) := strip_radix s1 in
  match parse_digits R None s2 with
  | Some n => of_Z (sign * n)
  | None => NaN
  end.

(** [s] starts with [p]: what is left of [s] after [p]. *)
Fixpoint strip_prefix (p s : string) : option string :=
  match p with
  | EmptyString => Some s
  | String a p' =>
      match s with
      | String b s' => if Ascii.eqb a b then strip_prefix p' s' else None
      | EmptyString => None
      end
  end.

(** [.*] followed by the rest of the pattern [k]: [k] matches after some
    run of characters that are not line terminators. *)
Fixpoint dot_star (k : string -> bool) (s : string) : bool :=
  k s ||
  match s with
  | EmptyString => false
  | String c s' => negb (is_line_terminator c) && dot_star k s'
  end.

(** A pattern [l1.*l2.*...ln] of literal pieces, matched at the start of
    the string. *)
Fixpoint match_here (lits : list string) (s : string) : bool :=
  match lits with
  | [] => true
  | l :: rest =>
      match strip_prefix l s with
      | None => false
      | Some r =>
          match rest with
          | [] => true
          | _ :: _ => dot_star (match_here rest) r
          end
      end
  end.

(** [/l1.*l2.*...ln/.test(s)]: the pattern is not anchored. *)
Fixpoint regex_test (lits : list string) (s : string) : bool :=
  match_here lits s ||
  match s with
  | EmptyString => false
  | String _ s' => regex_test lits s'
  end.

End JS.

(** An integer written where a number is expected is the number of that
    value, and the type expected of an option or of a pair decides how
    its components are read. *)
Coercion JS.Finite : Z >-> JS.Number.
Arguments Some {A} & a.
Arguments pair {A B} & a b.

(** ** The progress sink *)

(** The argument of [progress.report]: [{ message, increment }], where
    [increment] may be left out. *)
Record ProgressReport := Report {
  message : string;
  increment : option JS.Number
}.

(** An increment that was left out moves the bar by nothing. *)
Definition increment_of (r : ProgressReport) : JS.Number :=
  default (JS.Finite 0) (increment r).

(** The percentage the sink shows: the increments so far, added up in
    the order of the reports. *)
Definition cumulative (rs : list ProgressReport) : JS.Number :=
  fold_left (fun acc r => JS.add acc (increment_of r)) rs (JS.Finite 0).

(** A report is a percentage advance when it is the ["Compiling"] one. *)
Definition is_percent_advanced (r : ProgressReport) : bool :=
  String.eqb (message r) "Compiling".

(** The increments of the percentage advances among [rs], in order. *)
Definition percent_increments (rs : list ProgressReport) : list JS.Number :=
  map increment_of (filter (fun r => is_percent_advanced r = true) rs).

(** ** The build command's line handler *)

(** The two revisions of the build command. *)
Inductive Variant := DirectPipe | SocketRelay.

Module Build.

Definition regenerating_re : list string := ["Regenerating ninja files"].
Definition running_ninja_re : list string := ["Running"; "ninja"].

(** The helper's marker: [/goma/] when the output is read from the pipe,
    [/Running.*goma/] when it is relayed through the socket. *)
Definition goma_re (v : Variant) : list string :=
  match v with
  | DirectPipe => ["goma"]
  | SocketRelay => ["Running"; "goma"]
  end.

(** [parseInt(line.split("%")[0].trim())] *)
Definition buildProgress_of (line : string) : JS.Number :=
  JS.parseInt (JS.trim (JS.first (JS.split "%" line))).

(** The body of [rl.on("line", ...)]: from [lastBuildProgress] and the
    line, the new [lastBuildProgress] and the report made, if any. *)
Definition on_line (v : Variant) (lastBuildProgress : JS.Number)
    (line : string) : JS.Number * option ProgressReport :=
  if JS.regex_test regenerating_re line then
    (lastBuildProgress, Some (Report "Regenerating Ninja Files" (Some 0)))
  else
    let buildProgress := buildProgress_of line in
    if negb (JS.isNaN buildProgress) then
      if JS.gt buildProgress lastBuildProgress then
        (buildProgress,
         Some (Report "Compiling"
                 (Some (JS.sub buildProgress lastBuildProgress))))
      else (lastBuildProgress, None)
    else
      if JS.regex_test (goma_re v) line then
        (lastBuildProgress, Some (Report "Starting Goma" None))
      else if JS.regex_test running_ninja_re line then
        (lastBuildProgress, Some (Report "Starting" None))
      else (lastBuildProgress, None).

(** The handler over the lines of an operation, from a given baseline:
    the final baseline and the reports, in order. *)
Fixpoint run_from (v : Variant) (last : JS.Number) (lines : list string)
  : JS.Number * list ProgressReport :=
  match lines with
  | [] => (last, [])
  | line :: rest =>
      let '(last', r) := on_line v last line in
      let '(final, rs) := run_from v last' rest in
      (final, (option_list r ++ rs)%list)
  end.

(** [let lastBuildProgress = 0;] *)
Definition initial : JS.Number := 0.

Definition run (v : Variant) (lines : list string)
  : JS.Number * list ProgressReport :=
  run_from v initial lines.

(** The value the percent rule compares with the baseline on a line: the
    handler's variable [buildProgress] where the line reaches the rule (it
    does not match the regenerating marker) and the value is a number. *)
Definition parsed_percent (line : string) : option JS.Number :=
  if JS.regex_test regenerating_re line then None
  else if JS.isNaN (buildProgress_of line) then None
  else Some (buildProgress_of line).

End Build.

(** ** The sync command's line handler *)

Module Sync.

Definition running_patches_re : list string := ["running"; "apply_all_patches.py"].
Definition hook_took_re : list string := ["Hook"; "apply_all_patches.py"; "took"].

(** The body of [rl.on("line", ...)]: from [initialProgress] and the
    line, the new [initialProgress] and the report made, if any. *)
Definition on_line (initialProgress : bool) (line : string)
  : bool * option ProgressReport :=
  if JS.regex_test running_patches_re line then
    (initialProgress, Some (Report "Applying Patches" None))
  else if JS.regex_test hook_took_re line then
    (initialProgress, Some (Report "Finishing Up" None))
  else if negb initialProgress then
    (true, Some (Report "Dependencies" None))
  else (initialProgress, None).

Fixpoint run_from (initialProgress : bool) (lines : list string)
  : bool * list ProgressReport :=
  match lines with
  | [] => (initialProgress, [])
  | line :: rest =>
      let '(ip, r) := on_line initialProgress line in
      let '(final, rs) := run_from ip rest in
      (final, (option_list r ++ rs)%list)
  end.

(** [let initialProgress = false;] *)
Definition run (lines : list string) : bool * list ProgressReport :=
  run_from false lines.

End Sync.

(** ** Settlement of an operation *)

(** The calls the handlers make on the outside world, in call order;
    [UncaughtException] is an error that its emitter throws for want of
    a listener. *)
Inductive Effect :=
  | ShowErrorMessage (text : string)
  | ConsoleWarn (text : string)
  | KillThemAll
  | Terminate
  | UncaughtException.

(** The promise handed to [withProgress]. [resolve] and [reject] act on a
    pending promise only. *)
Inductive Promise := Pending | Fulfilled | Rejected (reason : string).

(** Truthiness of an exit code: [null] and [0] are falsy. *)
Definition truthy (exitCode : option Z) : bool :=
  match exitCode with
  | Some n => negb (n =? 0)
  | None => false
  end.

(** [exitCode !== 0] *)
Definition not_zero (exitCode : option Z) : bool :=
  match exitCode with
  | Some n => negb (n =? 0)
  | None => true
  end.

(** The constants of a command. *)
Record Operation := {
  command : string;
  operationName : string
}.

Definition build_operation : Operation :=
  {| command := "electron-build-tools build";
     operationName := "Electron Build Tools - Building" |}.

Definition sync_operation : Operation :=
  {| command := "electron-build-tools sync";
     operationName := "Electron Build Tools - Syncing" |}.

Definition failed_text (op : Operation) (exitCode : option Z) : string :=
  "'" +:+ operationName op +:+ "' failed with exit code "
  +:+ from_option pretty "null" exitCode.

Definition error_text (op : Operation) (msg : string) : string :=
  "'" +:+ operationName op +:+ "' had an error occur: " +:+ msg.

Definition canceled_text (op : Operation) : string :=
  "User canceled '" +:+ command op +:+ "'".

(** The error messages among the effects. *)
Definition errors_shown (log : list Effect) : list string :=
  omap (fun e => match e with ShowErrorMessage t => Some t | _ => None end) log.



(** *** Reading the child's output directly: [childProcess.exec] *)

Module Pipe.

Inductive Signal :=
  | ProcessError (msg : string)
  | ProcessExit (exitCode : option Z)
  | CancellationRequested.

(** [killed], the promise, which signal's handler settled it, and the
    effects so far. *)
Record State := {
  killed : bool;
  promise : Promise;
  settled_by : option Signal;
  log : list Effect
}.

Definition initial : State :=
  {| killed := false; promise := Pending; settled_by := None; log := [] |}.

Definition emit (e : Effect) (st : State) : State :=
  {| killed := killed st; promise := promise st;
     settled_by := settled_by st; log := log st ++ [e] |}.

Definition set_killed (st : State) : State :=
  {| killed := true; promise := promise st;
     settled_by := settled_by st; log := log st |}.

(** [resolve()] from the handler of [cause]. *)
Definition resolve (cause : Signal) (st : State) : State :=
  match promise st with
  | Pending =>
      {| killed := killed st; promise := Fulfilled;
         settled_by := Some cause; log := log st |}
  | _ => st
  end.

(** The three callbacks: [on("error")], [on("exit")] and
    [token.onCancellationRequested]. *)
Definition step (op : Operation) (st : State) (sig : Signal) : State :=
  match sig with
  | ProcessError msg =>
      resolve sig (emit (ShowErrorMessage (error_text op msg)) st)
  | ProcessExit exitCode =>
      let st1 :=
        if truthy exitCode && negb (killed st) && not_zero exitCode
        then emit (ShowErrorMessage (failed_text op exitCode)) st
        else st in
      resolve sig st1
  | CancellationRequested =>
      resolve sig
        (emit (ConsoleWarn (canceled_text op)) (emit KillThemAll (set_killed st)))
  end.

Definition run_from (op : Operation) (st : State) (sigs : list Signal) : State :=
  fold_left (step op) sigs st.

Definition run (op : Operation) (sigs : list Signal) : State :=
  run_from op initial sigs.

Definition is_cancel (sig : Signal) : bool :=
  match sig with CancellationRequested => true | _ => false end.

End Pipe.

(** *** Relaying the output through a socket: a task and a socket server *)

Module Relay.

(** A task execution, as the task events name it. *)
Definition Execution := nat.

Inductive Signal :=
  | SocketServerError
  | TaskEnded (execution : Execution)
  | TaskProcessEnded (execution : Execution) (exitCode : option Z)
  | CancellationRequested.

(** From [listen] to the return of [await vscode.tasks.executeTask(task)]
    no callback is registered but the one for the server's connections:
    what is known then is whether the token has been cancelled, and the
    effects so far. *)
Record Awaiting := {
  cancellationRequested : bool;
  early_log : list Effect
}.

Definition starting : Awaiting :=
  {| cancellationRequested := false; early_log := [] |}.

(** A signal that comes while [executeTask] is awaited. The server's
    "error" event has no listener, so that the emitter throws the error;
    the task events have no listener either; a request for cancellation
    marks the token. *)
Definition before_executor (a : Awaiting) (sig : Signal) : Awaiting :=
  match sig with
  | SocketServerError =>
      {| cancellationRequested := cancellationRequested a;
         early_log := early_log a ++ [UncaughtException] |}
  | TaskEnded _ | TaskProcessEnded _ _ => a
  | CancellationRequested =>
      {| cancellationRequested := true; early_log := early_log a |}
  end.

Definition await_executeTask (early : list Signal) : Awaiting :=
  fold_left before_executor early starting.

Record State := {
  promise : Promise;
  settled_by : option Signal;
  log : list Effect
}.

(** [new Promise(async (resolve, reject) => ...)], made once
    [executeTask] has returned: the promise is pending and the executor
    registers the callbacks. *)
Definition executor (a : Awaiting) : State :=
  {| promise := Pending; settled_by := None; log := early_log a |}.

(** [token.onCancellationRequested(...)] on a token that is cancelled
    already calls the callback from a timer of no delay: the calls that
    are owed when the executor has run. *)
Definition callbacks_due (a : Awaiting) : list Signal :=
  if cancellationRequested a then [CancellationRequested] else [].

Definition emit (e : Effect) (st : State) : State :=
  {| promise := promise st; settled_by := settled_by st; log := log st ++ [e] |}.

Definition settle (p : Promise) (cause : Signal) (st : State) : State :=
  match promise st with
  | Pending => {| promise := p; settled_by := Some cause; log := log st |}
  | _ => st
  end.

Definition is_pending (st : State) : bool :=
  match promise st with Pending => true | _ => false end.

(** The callbacks registered in the promise's executor, for the signals
    that come after it has run. *)
Definition handler (op : Operation) (taskExecution : Execution)
    (st : State) (sig : Signal) : State :=
  match sig with
  | SocketServerError => settle (Rejected "Socket server error") sig st
  | TaskEnded execution =>
      if Nat.eqb execution taskExecution then settle Fulfilled sig st else st
  | TaskProcessEnded execution exitCode =>
      if Nat.eqb execution taskExecution && truthy exitCode && not_zero exitCode
      then emit (ShowErrorMessage (failed_text op exitCode)) st
      else st
  | CancellationRequested =>
      emit (ConsoleWarn (canceled_text op))
        (emit Terminate (settle Fulfilled sig st))
  end.

(** [.finally(() => taskExecution.terminate())]: runs once the callback
    that settled the promise has returned. *)
Definition finally (before after : State) : State :=
  if is_pending before && negb (is_pending after)
  then emit Terminate after else after.

Definition step (op : Operation) (taskExecution : Execution)
    (st : State) (sig : Signal) : State :=
  finally st (handler op taskExecution st sig).

Definition run_from (op : Operation) (taskExecution : Execution)
    (st : State) (sigs : list Signal) : State :=
  fold_left (step op taskExecution) sigs st.

(** The whole operation: the signals [early] come while [executeTask] is
    awaited, [taskExecution] is what it returns, the signals [due] come
    after the executor has run and before the timer of a cancellation
    that was requested early, and the signals [late] after that. *)
Definition operation (op : Operation) (early : list Signal)
    (taskExecution : Execution) (due late : list Signal) : State :=
  run_from op taskExecution (executor (await_executeTask early))
    (due ++ callbacks_due (await_executeTask early) ++ late).

(** An operation whose signals all come after the executor has run. *)
Definition run (op : Operation) (taskExecution : Execution)
    (sigs : list Signal) : State :=
  operation op [] taskExecution [] sigs.


Definition is_cancel (sig : Signal) : bool :=
  match sig with CancellationRequested => true | _ => false end.



End Relay.

(** ** The environment of the build's child process *)

Module Env.

Definition NINJA_STATUS : string := "NINJA_STATUS".

Definition status_format : string := "%p %f/%t ".

(** [{ ...process.env, NINJA_STATUS: "%p %f/%t " }]: the same expression
    in both revisions of the build command. *)
Definition buildEnv (process_env : gmap string string) : gmap string string :=
  <[NINJA_STATUS := status_format]> process_env.

End Env.

(** ** Node's [path.join] on a POSIX platform *)

Module Path.

Definition sep : ascii := "/".

Definition is_absolute (path : string) : bool :=
  match path with
  | String c _ => Ascii.eqb c sep
  | EmptyString => false
  end.

Fixpoint ends_with_sep (path : string) : bool :=
  match path with
  | EmptyString => false
  | String c EmptyString => Ascii.eqb c sep
  | String _ rest => ends_with_sep rest
  end.

(** One segment of the path against the segments kept so far, the last
    kept one first: empty segments and [.] are dropped, [..] removes the
    last kept segment, or is kept when there is none to remove and the
    path is relative. *)
Definition push (allowAboveRoot : bool) (kept : list string) (seg : string)
  : list string :=
  if String.eqb seg "" || String.eqb seg "." then kept
  else if String.eqb seg ".." then
    match kept with
    | top :: below =>
        if String.eqb top ".."
        then (if allowAboveRoot then seg :: kept else kept)
        else below
    | [] => if allowAboveRoot then [seg] else []
    end
  else seg :: kept.

Definition kept_segments (allowAboveRoot : bool) (path : string) : list string :=
  fold_left (push allowAboveRoot) (JS.split sep path) [].

Definition normalizeString (path : string) (allowAboveRoot : bool) : string :=
  String.concat "/" (rev (kept_segments allowAboveRoot path)).

Definition normalize (path : string) : string :=
  if String.eqb path "" then "."
  else
    let isAbsolute := is_absolute path in
    let trailingSeparator := ends_with_sep path in
    let p := normalizeString path (negb isAbsolute) in
    if String.eqb p "" then
      if isAbsolute then "/" else if trailingSeparator then "./" else "."
    else
      let p' := if trailingSeparator then p +:+ "/" else p in
      if isAbsolute then "/" +:+ p' else p'.

Definition join (args : list string) : string :=
  match List.filter (fun a => negb (String.eqb a "")) args with
  | [] => "."
  | parts => normalize (String.concat "/" parts)
  end.

(** A directory written the way [normalize] leaves it, with a last
    segment and no separator after it. *)
Definition is_clean_dir (dir : string) : bool :=
  String.eqb (normalize dir) dir && negb (ends_with_sep dir)
  && negb (String.eqb dir ".").

End Path.

(** ** The name of the local endpoint *)

Module SocketName.

Definition pipe_prefix : string := "\\.\pipe\".

(** [generateSocketName], on the results of [os.platform()],
    [os.tmpdir()] and [uuidv4()]. The [path.join] of the second branch is
    the POSIX one, the platform not being Windows there. *)
Definition generateSocketName (platform tmpdir uuid : string) : string :=
  if String.eqb platform "win32"
  then pipe_prefix +:+ uuid
  else Path.join [tmpdir; "socket-" +:+ uuid].

(** The name the [n]-th call gets when [uuidv4] hands out the tokens
    [uuidv4 0], [uuidv4 1], ... *)
Definition nth_call (platform tmpdir : string) (uuidv4 : nat -> string)
    (n : nat) : string :=
  generateSocketName platform tmpdir (uuidv4 n).

End SocketName.

(** ** Notions used to state the properties *)

Definition sum_Z (l : list Z) : Z := fold_right Z.add 0 l.

(** The character [c] does not occur in [s]. *)
Fixpoint lacks (c : ascii) (s : string) : bool :=
  match s with
  | EmptyString => true
  | String a rest => negb (Ascii.eqb a c) && lacks c rest
  end.

(** The rules of the build handler, one constructor per path through
    its body. *)
Inductive build_rule (v : Variant) (last : JS.Number) (line : string)
  : JS.Number * option ProgressReport -> Prop :=
  | rule_regenerating :
      JS.regex_test Build.regenerating_re line = true ->
      build_rule v last line
        (last, Some (Report "Regenerating Ninja Files" (Some 0)))
  | rule_advance :
      JS.regex_test Build.regenerating_re line = false ->
      JS.isNaN (Build.buildProgress_of line) = false ->
      JS.gt (Build.buildProgress_of line) last = true ->
      build_rule v last line
        (Build.buildProgress_of line,
         Some (Report "Compiling"
                 (Some (JS.sub (Build.buildProgress_of line) last))))
  | rule_suppress :
      JS.regex_test Build.regenerating_re line = false ->
      JS.isNaN (Build.buildProgress_of line) = false ->
      JS.gt (Build.buildProgress_of line) last = false ->
      build_rule v last line (last, None)
  | rule_goma :
      JS.regex_test Build.regenerating_re line = false ->
      JS.isNaN (Build.buildProgress_of line) = true ->
      JS.regex_test (Build.goma_re v) line = true ->
      build_rule v last line (last, Some (Report "Starting Goma" None))
  | rule_ninja :
      JS.regex_test Build.regenerating_re line = false ->
      JS.isNaN (Build.buildProgress_of line) = true ->
      JS.regex_test (Build.goma_re v) line = false ->
      JS.regex_test Build.running_ninja_re line = true ->
      build_rule v last line (last, Some (Report "Starting" None))
  | rule_unmatched :
      JS.regex_test Build.regenerating_re line = false ->
      JS.isNaN (Build.buildProgress_of line) = true ->
      JS.regex_test (Build.goma_re v) line = false ->
      JS.regex_test Build.running_ninja_re line = false ->
      build_rule v last line (last, None).

(** The baseline stays at [last] or grows to [next]. *)
Definition stays_or_grows (last next : JS.Number) : Prop :=
  next = last \/ JS.gt next last = true.

(** The percentage advance a report carries, if it is one. *)
Definition percent_advanced (r : option ProgressReport)
  : option JS.Number :=
  match r with
  | Some r => if is_percent_advanced r then increment r else None
  | None => None
  end.

Definition is_decimal_digit (c : ascii) : bool :=
  (48 <=? JS.code c) && (JS.code c <=? 57).

(** A run of decimal digits, at least one, and then a percent sign. *)
Fixpoint digits_then_percent (seen : bool) (s : string) : bool :=
  match s with
  | EmptyString => false
  | String c rest =>
      if is_decimal_digit c then digits_then_percent true rest
      else seen && Ascii.eqb c "%"
  end.

(** A line as the percent rule is worded: its leading numeric token is
    followed at once by a percent sign. *)
Definition leading_percent_token (line : string) : bool :=
  digits_then_percent false (JS.trimStart line).

Definition lower_char (c : ascii) : ascii :=
  let n := JS.code c in
  if (65 <=? n) && (n <=? 90) then ascii_of_N (Z.to_N (n + 32)) else c.

Fixpoint lower (s : string) : string :=
  match s with
  | EmptyString => EmptyString
  | String c rest => String (lower_char c) (lower rest)
  end.

(** A test that ignores case, as the flag [i] would make it. *)
Definition regex_test_ignoring_case (lits : list string) (line : string) : bool :=
  JS.regex_test (map lower lits) (lower line).

(** [line] contains [marker]. *)
Definition contains (marker line : string) : Prop :=
  exists pre post, line = pre +:+ marker +:+ post.



(** What [join] puts before the last segment, for a directory [dir]:
    its kept segments, each followed by a separator, after the root's
    separator when [dir] is absolute. *)
Definition dir_prefix (dir : string) : string :=
  (if Path.is_absolute dir then "/" else "")
  +:+ match rev (Path.kept_segments (negb (Path.is_absolute dir)) dir) with
      | [] => ""
      | segs => String.concat "/" segs +:+ "/"
      end.

(** A supply of tokens that are distinct and free of separators. *)
Fixpoint token_supply (n : nat) : string :=
  match n with
  | O => "1b9d6bcd-bbfd-4b2d-9b5d-ab8dfbbd4bed"
  | S m => String "a" (token_supply m)
  end.

(** A line of the sync output that matches neither marker. *)
Definition unmarked (line : string) : Prop :=
  JS.regex_test Sync.running_patches_re line = false
  /\ JS.regex_test Sync.hook_took_re line = false.

(** ** More of JavaScript's strings *)

Module JSString.

(** The first [n] characters of [s]. *)
Fixpoint take (n : nat) (s : string) : string :=
  match n, s with
  | S m, String c rest => String c (take m rest)
  | _, _ => EmptyString
  end.

(** [s.substr(0, n)]: nothing when [n] is negative. *)
Definition substr0 (s : string) (n : Z) : string := take (Z.to_nat n) s.

(** [s.replace(c, r)] for a pattern that is a string of the one character
    [c] and a replacement [r] without dollar sign: the first occurrence
    is replaced, the others stay. *)
Fixpoint replace_first (c : ascii) (r : string) (s : string) : string :=
  match s with
  | EmptyString => EmptyString
  | String a rest =>
      if Ascii.eqb a c then r +:+ rest else String a (replace_first c r rest)
  end.

(** [s.replace(/[^...]/g, "")]: the characters of the class are kept. *)
Fixpoint filter_chars (keep : ascii -> bool) (s : string) : string :=
  match s with
  | EmptyString => EmptyString
  | String a rest =>
      if keep a then String a (filter_chars keep rest)
      else filter_chars keep rest
  end.

(** A replacement of single characters by single characters, all over
    the string. *)
Fixpoint map_chars (f : ascii -> ascii) (s : string) : string :=
  match s with
  | EmptyString => EmptyString
  | String a rest => String (f a) (map_chars f rest)
  end.

(** The lower-case mapping on the code units below 256: the capital
    letters A to Z, and those from 192 to 222 but the multiplication
    sign, move up by 32. *)
Definition toLowerCase_char (c : ascii) : ascii :=
  let n := JS.code c in
  if ((65 <=? n) && (n <=? 90))
     || ((192 <=? n) && (n <=? 222) && negb (n =? 215))
  then ascii_of_N (Z.to_N (n + 32)) else c.

(** [s.toLowerCase()] *)
Definition toLowerCase (s : string) : string := map_chars toLowerCase_char s.

(** [s.startsWith(p)] *)
Definition startsWith (p s : string) : bool :=
  match JS.strip_prefix p s with
  | Some _ => true
  | None => false
  end.

(** [s.endsWith(t)] *)
Fixpoint endsWith (s t : string) : bool :=
  String.eqb s t ||
  match s with
  | EmptyString => false
  | String _ rest => endsWith rest t
  end.

(** [a < b] on strings: the order of the code units, a proper prefix
    first. *)
Definition lt (a b : string) : bool :=
  match String.compare a b with
  | Lt => true
  | _ => false
  end.

(** The pieces of a text between its line terminators, which is where
    [^] and [$] of a pattern with the flag [m] match. *)
Fixpoint lines (s : string) : list string :=
  match s with
  | EmptyString => [EmptyString]
  | String c rest =>
      if JS.is_line_terminator c then EmptyString :: lines rest
      else match lines rest with
           | piece :: pieces => String c piece :: pieces
           | [] => [String c EmptyString]
           end
  end.

(** [Array.prototype.sort] with a comparator that orders by [lt] on a
    key: the sort is stable, so an element goes before the first one
    whose key is not below its own. *)
Fixpoint sort_insert {A : Type} (key : A -> string) (x : A) (l : list A)
  : list A :=
  match l with
  | [] => [x]
  | y :: rest =>
      if lt (key y) (key x) then y :: sort_insert key x rest else x :: l
  end.

Definition sort_by {A : Type} (key : A -> string) (l : list A) : list A :=
  fold_right (sort_insert key) [] l.

End JSString.

(** ** The helpers of [utils.ts] *)

Module Utils.

(** [truncateToLength] *)
Definition truncateToLength (text : string) (length : Z) : string :=
  if Z.of_nat (String.length text) >? length
  then JSString.substr0 text (length - 3) +:+ "..."
  else text.

(** [escapeStringForRegex] *)
Definition escapeStringForRegex (str : string) : string :=
  JSString.replace_first "." "\."
    (JSString.replace_first ")" "\)"
       (JSString.replace_first "(" "\(" str)).

(** [ensurePosixSeparators], on the platform's [path.sep]. *)
Definition ensurePosixSeparators (sep : ascii) (filePath : string) : string :=
  String.concat "/" (JS.split sep filePath).

(** The class [[A-Za-z0-9 \-]]. *)
Definition slug_char (c : ascii) : bool :=
  let n := JS.code c in
  ((65 <=? n) && (n <=? 90)) || ((97 <=? n) && (n <=? 122))
  || ((48 <=? n) && (n <=? 57)) || (n =? 32) || (n =? 45).

Definition space_to_dash (c : ascii) : ascii :=
  if Ascii.eqb c " " then "-"%char else c.

(** [slugifyHeading] *)
Definition slugifyHeading (heading : string) : string :=
  JSString.toLowerCase
    (JSString.map_chars space_to_dash (JSString.filter_chars slug_char heading)).

(** [alphabetizeByLabel], for tree items of any make with a label. *)
Definition alphabetizeByLabel {TreeItem : Type} (label : TreeItem -> string)
    (treeItems : list TreeItem) : list TreeItem :=
  JSString.sort_by (fun item => JSString.toLowerCase (label item)) treeItems.

(** The loop of [getConfigs] over the lines of the output of
    [show configs]: the names, and the active one if any. *)
Definition config_step (acc : list string * option string) (rawConfig : string)
  : list string * option string :=
  let config := JS.trim (JSString.replace_first "*" "" rawConfig) in
  ((fst acc ++ [config])%list,
   if JSString.startsWith "*" (JS.trim rawConfig) then Some config
   else snd acc).

(** [getConfigs], on the standard output of the command it runs. *)
Definition getConfigs (stdout : string) : list string * option string :=
  fold_left config_step (JS.split "010" (JS.trim stdout)) ([], None).

(** [getCheckoutDirectoryForPatchDirectory], on the entries of the
    configuration in the order of [Object.entries] and on the path of the
    patch directory; [None] is the error thrown after the loop. *)
Fixpoint getCheckoutDirectoryForPatchDirectory {Uri : Type}
    (joinPath : Uri -> string -> Uri) (rootDirectory : Uri)
    (config : list (string * string)) (patchDirectory : string) : option Uri :=
  match config with
  | [] => None
  | (patchDirectoryTail, checkoutDirectory) :: entries =>
      if JSString.endsWith patchDirectory patchDirectoryTail
      then Some (joinPath rootDirectory checkoutDirectory)
      else getCheckoutDirectoryForPatchDirectory joinPath rootDirectory
             entries patchDirectory
  end.

(** The first capture group of every match of [patchedFilenameRegex],
    the rest of each line that starts with the plus signs and the b
    directory, as [getFilesInPatch] and [parsePatchMetadata] collect
    them. *)
Definition patched_filenames (patchContents : string) : list string :=
  omap (JS.strip_prefix "+++ b/") (JSString.lines patchContents).

(** The group the subject pattern captures in [getPatchSubjectLine]: the
    rest of the first line that starts with the word Subject, a colon and
    a space; [None] is the error of reading the null result of [exec]. *)
Definition getPatchSubjectLine (patchContents : string) : option string :=
  head (omap (JS.strip_prefix "Subject: ") (JSString.lines patchContents)).

(** The end of [findCommitForPatch], on the standard output of [git log];
    [None] is the error thrown. *)
Definition findCommitForPatch (stdout : string) : option string :=
  let result := JS.trim stdout in
  if String.eqb result ""
     || negb (Nat.eqb (length (JS.split "010" result)) 1)
  then None else Some result.

End Utils.

(** ** The busy flag of [utils.ts] *)

Module Busy.

(** [globalBusy], and the values given to the context key
    [electron-build-tools:busy], in call order. *)
Record State := {
  globalBusy : bool;
  context : list bool
}.

Inductive Outcome (A : Type) :=
  | Returned (value : A)
  | Thrown (error : string).
Arguments Returned {A} value.
Arguments Thrown {A} error.

Definition setContext (value : bool) (st : State) : State :=
  {| globalBusy := globalBusy st; context := context st ++ [value] |}.

Definition setBusy (value : bool) (st : State) : State :=
  {| globalBusy := value; context := context st |}.

(** The command [registerCommandNoBusy] registers, for a guard and a
    callback already given their arguments. *)
Definition registerCommandNoBusy {A : Type}
    (busyGuard callback : State -> A * State) (st : State) : A * State :=
  if globalBusy st then busyGuard st else callback st.

(** [withBusyState]: the work runs between the two settings of the flag,
    and the [finally] block runs whether the work returns or throws. *)
Definition withBusyState {A : Type}
    (workFn : State -> Outcome A * State) (st : State) : Outcome A * State :=
  let '(outcome, st') := workFn (setBusy true (setContext true st)) in
  (outcome, setBusy false (setContext false st')).

(** A work that awaits [first] and then, unless [first] threw, runs a
    command and returns what the command returns. *)
Definition and_then {A B : Type} (first : State -> Outcome A * State)
    (next : State -> B * State) (st : State) : Outcome B * State :=
  match first st with
  | (Returned _, st1) => let '(b, st2) := next st1 in (Returned b, st2)
  | (Thrown error, st1) => (Thrown error, st1)
  end.

(** A work that does nothing but return. *)
Definition nothing (st : State) : Outcome unit * State := (Returned tt, st).

End Busy.

(** ** Activation *)

Module Activation.

(** What [JSON.parse] makes of a [package.json]: an error, or an object
    with or without a name. *)
Inductive PackageFile :=
  | Unparsable
  | Package (name : option string).

Record FileSystem := {
  existsSync : string -> bool;
  readPackage : string -> PackageFile
}.

(** How the body of an async function ends: [return] of a boolean,
    falling off the end ([None]), or an exception. *)
Inductive Completion :=
  | Return (value : option bool)
  | Throw.

(** The loop of [electronIsInWorkspace] over the possible roots. *)
Fixpoint search_roots (fs : FileSystem) (fsPath : string)
    (possiblePackageRoots : list string) : Completion :=
  match possiblePackageRoots with
  | [] => Return None
  | possibleRoot :: roots =>
      let rootPackageFilename :=
        Path.join [fsPath; possibleRoot; "package.json"] in
      if negb (existsSync fs rootPackageFilename)
      then search_roots fs fsPath roots
      else match readPackage fs rootPackageFilename with
           | Unparsable => Throw
           | Package name =>
               Return (Some (bool_decide (name = Some "electron")))
           end
  end.

(** [electronIsInWorkspace], on the path of the workspace folder: what
    the promise it returns settles to. *)
Definition electronIsInWorkspace (fs : FileSystem) (fsPath : string)
  : Completion :=
  search_roots fs fsPath ["."; "electron"].

(** A value as a condition tests it. *)
Inductive Value :=
  | Undefined
  | PromiseObject (settlement : Completion).

Definition ToBoolean (v : Value) : bool :=
  match v with
  | Undefined => false
  | PromiseObject _ => true
  end.

(** [activate]: whether the commands and the tree view are registered.
    [workspaceFolders] is [None] when it is undefined; the call of the
    async function is not awaited, so the condition tests the promise. *)
Definition activate (fs : FileSystem) (workspaceFolders : option (list string))
  : bool :=
  match workspaceFolders with
  | None => false
  | Some folders =>
      ToBoolean
        (PromiseObject
           (match folders with
            | fsPath :: _ => electronIsInWorkspace fs fsPath
            | [] => Throw
            end))
  end.

End Activation.

(** ** Notions for the further properties *)

(** The highest value the percent rule parses on the lines, [last] when
    none is higher. *)
Definition higher (m bp : JS.Number) : JS.Number :=
  if JS.gt bp m then bp else m.

Definition highest_percent (last : JS.Number) (lines : list string)
  : JS.Number :=
  fold_left
    (fun m line => from_option (higher m) m (Build.parsed_percent line))
    lines last.

(** How many reports carry the message [m]. *)
Definition count_message (m : string) (rs : list ProgressReport) : nat :=
  length (List.filter (fun r => String.eqb (message r) m) rs).

Definition is_unmarked (line : string) : bool :=
  negb (JS.regex_test Sync.running_patches_re line)
  && negb (JS.regex_test Sync.hook_took_re line).

(** The characters of a slug: small letters, digits and the dash. *)
Definition slug_alphabet (c : ascii) : bool :=
  let n := JS.code c in
  ((97 <=? n) && (n <=? 122)) || ((48 <=? n) && (n <=? 57)) || (n =? 45).

(** Every character of [s] passes [p]. *)
Fixpoint all_chars (p : ascii -> bool) (s : string) : bool :=
  match s with
  | EmptyString => true
  | String c rest => p c && all_chars p rest
  end.

(** A character that ends no line. *)
Definition in_line (c : ascii) : bool := negb (JS.is_line_terminator c).

(** [a] may stand before [b] in a list ordered by [key]: the key of [b]
    is not below the key of [a]. *)
Definition stands_before {A : Type} (key : A -> string) (a b : A) : Prop :=
  JSString.lt (key b) (key a) = false.

(** [s] ends with [t]. *)
Definition has_suffix (s t : string) : Prop := exists pre, s = pre +:+ t.

(** * Properties *)

Example join_ex1 : Path.join ["/tmp"; "socket-abc"] = "/tmp/socket-abc".
Proof. reflexivity. Qed.
Example join_ex2 : Path.join ["/var//folders/./x/../T/"; "socket-abc"] = "/var/folders/T/socket-abc".
Proof. reflexivity. Qed.
Example join_ex3 : Path.join ["."; "socket-abc"] = "socket-abc".
Proof. reflexivity. Qed.
Example join_ex4 : Path.join ["../a/../.."; "s"] = "../../s".
Proof. reflexivity. Qed.
Example join_ex5 : Path.normalize "/a/b/../../.." = "/".
Proof. reflexivity. Qed.
Example clean_ex1 : Path.is_clean_dir "/tmp" = true.
Proof. reflexivity. Qed.
Example pipe_prefix_length : String.length SocketName.pipe_prefix = 9%nat.
Proof. reflexivity. Qed.
Example sock_ex1 :
  SocketName.generateSocketName "win32" "C:\Temp" "1b9d6bcd-bbfd-4b2d-9b5d-ab8dfbbd4bed"
  = "\\.\pipe\1b9d6bcd-bbfd-4b2d-9b5d-ab8dfbbd4bed".
Proof. reflexivity. Qed.

Example parseInt_ex1 : JS.parseInt "50" = 50. Proof. reflexivity. Qed.
Example parseInt_ex2 : JS.parseInt "  -7x" = -7. Proof. reflexivity. Qed.
Example parseInt_ex3 : JS.parseInt "0x1f" = 31. Proof. reflexivity. Qed.
Example parseInt_ex4 : JS.parseInt "Running" = JS.NaN. Proof. reflexivity. Qed.
Example parseInt_ex5 : JS.parseInt "" = JS.NaN. Proof. reflexivity. Qed.
Example parseInt_ex6 : JS.parseInt "9007199254740993" = 9007199254740992.
Proof. reflexivity. Qed.
Example parseInt_ex7 : JS.parseInt "9007199254740995" = 9007199254740996.
Proof. reflexivity. Qed.
Example of_Z_ex1 : JS.of_Z (2 ^ 1024 - 2 ^ 970) = JS.Infinity false.
Proof. vm_compute. reflexivity. Qed.
Example of_Z_ex2 : JS.of_Z (2 ^ 1024 - 2 ^ 970 - 1) = JS.Finite (2 ^ 1024 - 2 ^ 971).
Proof. vm_compute. reflexivity. Qed.
Example sub_ex1 : JS.sub 9007199254740994 1 = 9007199254740992.
Proof. reflexivity. Qed.
Example split_ex1 : JS.split "%" "50% 5/10" = ["50"; " 5/10"]. Proof. reflexivity. Qed.
Example split_ex2 : JS.split "%" "a%%b%" = ["a"; ""; "b"; ""]. Proof. reflexivity. Qed.
Example trim_ex1 : JS.trim "  a b  " = "a b". Proof. reflexivity. Qed.
Example regex_ex1 : JS.regex_test ["Running"; "ninja"] "x Running the ninja" = true.
Proof. reflexivity. Qed.
Example regex_ex2 : JS.regex_test ["Running"; "ninja"] "ninja Running" = false.
Proof. reflexivity. Qed.

Example build_ex1 v :
  Build.run v ["50% 5/10"; "30% 3/10"; "70% 7/10"]
  = (70, [Report "Compiling" (Some 50); Report "Compiling" (Some 20)]).
Proof. destruct v; reflexivity. Qed.
Example build_ex2 v :
  Build.run v ["Running ninja..."; "10% 5/50"; "25% 12/50"; "30% 15/50"]
  = (30, [Report "Starting" None; Report "Compiling" (Some 10);
          Report "Compiling" (Some 15); Report "Compiling" (Some 5)]).
Proof. destruct v; reflexivity. Qed.
Example build_ex3 v : Build.on_line v 0 "REGENERATING NINJA FILES" = (0, None).
Proof. destruct v; reflexivity. Qed.
Example build_ex4 v : Build.on_line v 0 "10 files" = (10, Some (Report "Compiling" (Some 10))).
Proof. destruct v; reflexivity. Qed.
Example sync_ex1 :
  Sync.run ["a"; "b"; "running 'python3 src/electron/script/apply_all_patches.py'"]
  = (true, [Report "Dependencies" None; Report "Applying Patches" None]).
Proof. reflexivity. Qed.
Example sync_ex2 :
  Sync.on_line false "Hook running apply_all_patches.py took 3 secs"
  = (false, Some (Report "Applying Patches" None)).
Proof. reflexivity. Qed.

Example pipe_ex1 :
  Pipe.log (Pipe.run build_operation [Pipe.CancellationRequested; Pipe.ProcessExit (Some 1)])
  = [KillThemAll; ConsoleWarn "User canceled 'electron-build-tools build'"].
Proof. reflexivity. Qed.
Example pipe_ex2 :
  Pipe.log (Pipe.run build_operation [Pipe.ProcessExit (Some 1)])
  = [ShowErrorMessage "'Electron Build Tools - Building' failed with exit code 1"].
Proof. vm_compute. reflexivity. Qed.
Example relay_ex2 :
  Relay.promise (Relay.operation build_operation [Relay.SocketServerError] 7%nat [] []) = Pending
  /\ Relay.log (Relay.operation build_operation [Relay.SocketServerError] 7%nat [] [])
     = [UncaughtException].
Proof. split; reflexivity. Qed.
Example relay_ex3 :
  Relay.promise (Relay.run build_operation 7%nat [Relay.SocketServerError])
  = Rejected "Socket server error".
Proof. reflexivity. Qed.
Example relay_ex1 :
  Relay.log (Relay.run build_operation 7%nat [Relay.CancellationRequested; Relay.TaskProcessEnded 7%nat (Some 1)])
  = [Terminate; ConsoleWarn "User canceled 'electron-build-tools build'"; Terminate;
     ShowErrorMessage "'Electron Build Tools - Building' failed with exit code 1"].
Proof. vm_compute. reflexivity. Qed.

(** ** Numbers *)

Lemma round53_exact n : Z.abs n <= 2 ^ 53 -> JS.round53 n = n.
Proof.
  intros H. unfold JS.round53. apply Z.leb_le in H. now rewrite H.
Qed.

(** Beyond 2^53 the quotient that is kept has 53 bits. *)
Lemma round53_big a :
  2 ^ 53 < a ->
  1 <= Z.log2 a - 52
  /\ 2 ^ 52 <= a / 2 ^ (Z.log2 a - 52) < 2 ^ 53.
Proof.
  intros Ha.
  assert (Hpos : 0 < a) by (assert (0 < 2 ^ 53) by reflexivity; lia).
  destruct (Z.log2_spec a Hpos) as [Hlo Hhi].
  assert (Hk : 53 <= Z.log2 a).
  { apply Z.log2_le_pow2; [exact Hpos|]. lia. }
  set (e := Z.log2 a - 52).
  assert (He : 1 <= e) by (unfold e; lia).
  assert (Hpe : 0 < 2 ^ e) by (apply Z.pow_pos_nonneg; lia).
  assert (Hk1 : 2 ^ Z.log2 a = 2 ^ 52 * 2 ^ e).
  { rewrite <- Z.pow_add_r by lia. f_equal. unfold e. lia. }
  assert (Hk2 : 2 ^ Z.succ (Z.log2 a) = 2 ^ 53 * 2 ^ e).
  { rewrite <- Z.pow_add_r by lia. f_equal. unfold e. lia. }
  split; [exact He|]. split.
  - apply Z.div_le_lower_bound; [exact Hpe|]. lia.
  - apply Z.div_lt_upper_bound; [exact Hpe|]. lia.
Qed.

Lemma round53_pos n : 0 < n -> 0 < JS.round53 n.
Proof.
  intros Hn. unfold JS.round53.
  destruct (Z.abs n <=? 2 ^ 53) eqn:Hs; [exact Hn|].
  apply Z.leb_gt in Hs.
  destruct (round53_big (Z.abs n) Hs) as (He & Hq).
  cbv zeta.
  set (e := Z.log2 (Z.abs n) - 52) in *.
  set (q := Z.abs n / 2 ^ e) in *.
  assert (Hpe : 0 < 2 ^ e) by (apply Z.pow_pos_nonneg; lia).
  assert (H52 : 0 < 2 ^ 52) by reflexivity.
  rewrite (Z.sgn_pos n Hn), Z.mul_1_l.
  apply Z.mul_pos_pos; [|exact Hpe].
  destruct (_ || _); lia.
Qed.

(** A positive integer gives a positive number. *)
Lemma of_Z_pos n : 0 < n -> JS.gt (JS.of_Z n) 0 = true.
Proof.
  intros Hn. unfold JS.of_Z.
  pose proof (round53_pos n Hn).
  destruct (2 ^ 1024 <=? Z.abs (JS.round53 n)); simpl.
  - apply negb_true_iff. now apply Z.ltb_ge, Z.lt_le_incl.
  - now apply Z.ltb_lt.
Qed.

(** Up to 2^53 in magnitude every integer is a double. *)
Lemma of_Z_exact n : Z.abs n <= 2 ^ 53 -> JS.of_Z n = JS.Finite n.
Proof.
  intros H. unfold JS.of_Z. rewrite (round53_exact n H).
  assert (Hlt : 2 ^ 53 < 2 ^ 1024) by (apply Z.pow_lt_mono_r; lia).
  destruct (Z.leb_spec (2 ^ 1024) (Z.abs n)); [lia | reflexivity].
Qed.

Lemma gt_irrefl a : JS.gt a a = false.
Proof. destruct a as [|x|[]]; simpl; try reflexivity. apply Z.ltb_irrefl. Qed.

Lemma gt_trans a b c :
  JS.gt a b = true -> JS.gt b c = true -> JS.gt a c = true.
Proof.
  destruct a as [|x|[]], b as [|y|[]], c as [|z|[]]; simpl; try congruence.
  rewrite !Z.ltb_lt. lia.
Qed.

Lemma gt_asym a b : JS.gt a b = true -> JS.gt b a = false.
Proof.
  intros H. destruct (JS.gt b a) eqn:H'; [|reflexivity].
  pose proof (gt_trans _ _ _ H H') as Ht. now rewrite gt_irrefl in Ht.
Qed.

(** The difference of a number and a smaller one is positive. *)
Lemma gt_sub_pos a b : JS.gt a b = true -> JS.gt (JS.sub a b) 0 = true.
Proof.
  destruct a as [|x|[]], b as [|y|[]]; simpl; try congruence.
  rewrite Z.ltb_lt. intros H. apply of_Z_pos. lia.
Qed.

(** An integer of 53 bits times a power of two is left as it is. *)
Lemma round53_scaled q e s :
  0 <= e -> 2 ^ 52 <= q <= 2 ^ 53 -> s = 1 \/ s = -1 ->
  JS.round53 (s * (q * 2 ^ e)) = s * (q * 2 ^ e).
Proof.
  intros He Hq Hs.
  assert (H52 : 0 < 2 ^ 52) by reflexivity.
  assert (H5253 : 2 ^ 53 = 2 * 2 ^ 52) by reflexivity.
  assert (Hpe : 0 < 2 ^ e) by (apply Z.pow_pos_nonneg; lia).
  set (m := q * 2 ^ e).
  assert (Hm : 0 < m) by (apply Z.mul_pos_pos; lia).
  assert (Habs : Z.abs (s * m) = m) by (destruct Hs as [-> | ->]; lia).
  assert (Hsgn : Z.sgn (s * m) = s).
  { destruct Hs as [-> | ->]; [rewrite Z.sgn_pos | rewrite Z.sgn_neg]; lia. }
  unfold JS.round53. rewrite Habs, Hsgn.
  destruct (m <=? 2 ^ 53) eqn:Hsmall; [reflexivity|].
  apply Z.leb_gt in Hsmall. cbv zeta.
  destruct (Z.eq_dec q (2 ^ 53)) as [Heq|Hne].
  - assert (Hm2 : m = 2 ^ (53 + e))
      by (unfold m; rewrite Heq, Z.pow_add_r by lia; reflexivity).
    assert (Hlog : Z.log2 m = 53 + e) by (rewrite Hm2; apply Z.log2_pow2; lia).
    rewrite Hlog. replace (53 + e - 52) with (e + 1) by lia.
    assert (Hm3 : m = 2 ^ 52 * 2 ^ (e + 1)).
    { rewrite Hm2, <- Z.pow_add_r by lia. f_equal. lia. }
    assert (Hpe1 : 0 < 2 ^ (e + 1)) by (apply Z.pow_pos_nonneg; lia).
    assert (Hdiv : m / 2 ^ (e + 1) = 2 ^ 52)
      by (rewrite Hm3; apply Z.div_mul; lia).
    assert (Hmod : m mod 2 ^ (e + 1) = 0)
      by (rewrite Hm3; apply Z.mod_mul; lia).
    rewrite Hdiv, Hmod.
    replace (e + 1 - 1) with e by lia.
    destruct (Z.ltb_spec (2 ^ e) 0); [lia|].
    destruct (Z.eqb_spec 0 (2 ^ e)); [lia|]. simpl. now rewrite <- Hm3.
  - assert (Hlog : Z.log2 m = 52 + e).
    { apply Z.log2_unique; [lia|]. unfold m.
      replace (Z.succ (52 + e)) with (53 + e) by lia.
      rewrite !Z.pow_add_r by lia. split.
      - apply Z.mul_le_mono_nonneg_r; lia.
      - apply Zmult_lt_compat_r; lia. }
    rewrite Hlog. replace (52 + e - 52) with e by lia.
    assert (Hdiv : m / 2 ^ e = q) by (apply Z.div_mul; lia).
    assert (Hmod : m mod 2 ^ e = 0) by (apply Z.mod_mul; lia).
    rewrite Hdiv, Hmod.
    assert (He1 : 1 <= e).
    { destruct (Z.eq_dec e 0) as [->|]; [|lia].
      unfold m in Hsmall. simpl in Hsmall. lia. }
    assert (Hh : 0 < 2 ^ (e - 1)) by (apply Z.pow_pos_nonneg; lia).
    destruct (Z.ltb_spec (2 ^ (e - 1)) 0); [lia|].
    destruct (Z.eqb_spec 0 (2 ^ (e - 1))); [lia|]. reflexivity.
Qed.

(** What the rounding gives is a double: rounding leaves it as it is. *)
Lemma round53_idem n : JS.round53 (JS.round53 n) = JS.round53 n.
Proof.
  destruct (Z.le_gt_cases (Z.abs n) (2 ^ 53)) as [Hs|Hb].
  - now rewrite !(round53_exact n Hs).
  - destruct (round53_big (Z.abs n) Hb) as (He & Hq).
    assert (Hn : exists q, 2 ^ 52 <= q <= 2 ^ 53
                 /\ JS.round53 n
                    = Z.sgn n * (q * 2 ^ (Z.log2 (Z.abs n) - 52))).
    { unfold JS.round53. apply Z.leb_gt in Hb. rewrite Hb. cbv zeta.
      eexists. split; [|reflexivity]. destruct (_ || _); lia. }
    destruct Hn as (q & Hq' & ->).
    apply round53_scaled; [lia | exact Hq' |].
    assert (0 < 2 ^ 53) by reflexivity.
    destruct (Z.sgn_spec n) as [[? ->]|[[? ->]|[? ->]]]; lia.
Qed.

Lemma of_Z_idem n r : JS.of_Z n = JS.Finite r -> JS.of_Z r = JS.Finite r.
Proof.
  unfold JS.of_Z.
  destruct (2 ^ 1024 <=? Z.abs (JS.round53 n)) eqn:H; [discriminate|].
  intros [= <-]. now rewrite round53_idem, H.
Qed.

(** Taking nothing from a number that was read leaves it as it is. *)
Lemma of_Z_sub_zero n : JS.sub (JS.of_Z n) 0 = JS.of_Z n.
Proof.
  destruct (JS.of_Z n) as [|r|b] eqn:Hn; try reflexivity.
  simpl. rewrite Z.sub_0_r. exact (of_Z_idem _ _ Hn).
Qed.

Lemma parseInt_sub_zero str : JS.sub (JS.parseInt str) 0 = JS.parseInt str.
Proof.
  unfold JS.parseInt.
  destruct (JS.strip_sign (JS.trimStart str)) as [sign s1].
  destruct (JS.strip_radix s1) as [R s2].
  destruct (JS.parse_digits R None s2); [apply of_Z_sub_zero | reflexivity].
Qed.

Lemma stays_or_grows_refl a : stays_or_grows a a.
Proof. now left. Qed.

Lemma stays_or_grows_trans a b c :
  stays_or_grows a b -> stays_or_grows b c -> stays_or_grows a c.
Proof.
  intros [->|Hab] [->|Hbc]; [now left | now right | now right |].
  right. now apply gt_trans with b.
Qed.

(** Nothing is below a baseline that stays or grows from it. *)
Lemma stays_or_grows_not_below a b :
  stays_or_grows a b -> JS.gt a b = false.
Proof. intros [->|H]; [apply gt_irrefl | now apply gt_asym]. Qed.

Lemma stays_or_grows_gt x a b :
  stays_or_grows a b -> JS.gt x b = true -> JS.gt x a = true.
Proof. intros [->|H] Hx; [exact Hx | now apply gt_trans with b]. Qed.

(** ** The build handler follows its rules *)

Lemma on_line_rule v last line :
  build_rule v last line (Build.on_line v last line).
Proof.
  unfold Build.on_line.
  destruct (JS.regex_test Build.regenerating_re line) eqn:Hregen.
  - now constructor.
  - cbv zeta.
    destruct (JS.isNaN (Build.buildProgress_of line)) eqn:Hnan; simpl negb;
      cbv iota.
    + destruct (JS.regex_test (Build.goma_re v) line) eqn:Hgoma.
      * now apply rule_goma.
      * destruct (JS.regex_test Build.running_ninja_re line) eqn:Hninja.
        -- now apply rule_ninja.
        -- now apply rule_unmatched.
    + destruct (JS.gt (Build.buildProgress_of line) last) eqn:Hgt.
      * now apply rule_advance.
      * now apply rule_suppress.
Qed.

Lemma on_line_baseline v last line :
  stays_or_grows last (fst (Build.on_line v last line)).
Proof.
  destruct (on_line_rule v last line); simpl;
    solve [now left | now right].
Qed.

Lemma build_run_from_cons v last line rest :
  Build.run_from v last (line :: rest)
  = (fst (Build.run_from v (fst (Build.on_line v last line)) rest),
     (option_list (snd (Build.on_line v last line))
      ++ snd (Build.run_from v (fst (Build.on_line v last line)) rest))%list).
Proof.
  simpl. destruct (Build.on_line v last line) as [last' r]. simpl.
  now destruct (Build.run_from v last' rest).
Qed.

Lemma build_run_from_app v last pre post :
  Build.run_from v last (pre ++ post)
  = (fst (Build.run_from v (fst (Build.run_from v last pre)) post),
     (snd (Build.run_from v last pre)
      ++ snd (Build.run_from v (fst (Build.run_from v last pre)) post))%list).
Proof.
  revert last. induction pre as [|line pre IH]; intros last.
  - simpl. now destruct (Build.run_from v last post).
  - rewrite <- app_comm_cons, !build_run_from_cons. simpl.
    rewrite IH. simpl. now rewrite app_assoc.
Qed.

Lemma build_run_from_baseline v last lines :
  stays_or_grows last (fst (Build.run_from v last lines)).
Proof.
  revert last. induction lines as [|line rest IH]; intros last.
  - apply stays_or_grows_refl.
  - rewrite build_run_from_cons. simpl.
    apply stays_or_grows_trans with (fst (Build.on_line v last line));
      [apply on_line_baseline | apply IH].
Qed.

Lemma percent_increments_app rs1 rs2 :
  percent_increments (rs1 ++ rs2)
  = (percent_increments rs1 ++ percent_increments rs2)%list.
Proof. unfold percent_increments. now rewrite filter_app, map_app. Qed.

Lemma sum_Z_app l1 l2 : sum_Z (l1 ++ l2) = sum_Z l1 + sum_Z l2.
Proof. induction l1 as [|x l1 IH]; simpl; [reflexivity | rewrite IH; lia]. Qed.

(** What one line adds to the percentage advances. *)
Lemma on_line_increment v last line :
  percent_increments (option_list (snd (Build.on_line v last line))) = []
    /\ fst (Build.on_line v last line) = last
  \/ percent_increments (option_list (snd (Build.on_line v last line)))
       = [JS.sub (fst (Build.on_line v last line)) last]
    /\ JS.gt (fst (Build.on_line v last line)) last = true.
Proof.
  destruct (on_line_rule v last line); simpl; auto.
Qed.

Lemma increments_positive v last lines :
  Forall (fun i => JS.gt i 0 = true)
    (percent_increments (snd (Build.run_from v last lines))).
Proof.
  revert last. induction lines as [|line rest IH]; intros last.
  - constructor.
  - rewrite build_run_from_cons. simpl. rewrite percent_increments_app.
    apply Forall_app. split; [|apply IH].
    destruct (on_line_increment v last line) as [[-> _]|[-> Hgt]].
    + constructor.
    + constructor; [now apply gt_sub_pos | constructor].
Qed.

(** While the baseline runs from 0 or more to 2^53 or less, the
    increments are the exact differences, and they add up. *)
Lemma increments_sum v (last final : Z) lines :
  0 <= last ->
  fst (Build.run_from v last lines) = JS.Finite final ->
  final <= 2 ^ 53 ->
  exists incs : list Z,
    percent_increments (snd (Build.run_from v last lines))
    = map JS.Finite incs
    /\ Forall (fun i => 0 < i) incs
    /\ sum_Z incs = final - last.
Proof.
  revert last. induction lines as [|line rest IH]; intros last Hlast Hfin Hmax.
  - simpl in Hfin. injection Hfin as <-. exists []. repeat split.
    + constructor.
    + simpl. lia.
  - rewrite build_run_from_cons in Hfin |- *. simpl fst in Hfin. simpl snd.
    rewrite percent_increments_app.
    pose proof (build_run_from_baseline v
                  (fst (Build.on_line v last line)) rest) as Hmono.
    rewrite Hfin in Hmono.
    destruct (on_line_increment v last line) as [[-> Heq]|[-> Hgt]].
    + rewrite Heq in Hfin |- *.
      destruct (IH last Hlast Hfin Hmax) as (incs & -> & Hpos & Hsum).
      now exists incs.
    + destruct (fst (Build.on_line v last line)) as [|b|neg] eqn:Hb;
        simpl in Hgt; try discriminate.
      * apply Z.ltb_lt in Hgt.
        assert (Hbf : b <= final).
        { destruct Hmono as [[= ->]|Hm]; [lia|].
          simpl in Hm. apply Z.ltb_lt in Hm. lia. }
        destruct (IH b ltac:(lia) Hfin Hmax) as (incs & -> & Hpos & Hsum).
        exists ((b - last) :: incs). split; [|split].
        -- simpl. rewrite of_Z_exact by lia. reflexivity.
        -- constructor; [lia | exact Hpos].
        -- simpl. lia.
      * destruct Hmono as [Hm|Hm]; [discriminate Hm|].
        destruct neg; simpl in Hm; discriminate.
Qed.

(** C3, as the numbers of the handler have it: whatever the lines, every
    increment of a percentage advance is strictly positive and the
    baseline never decreases (after each line, and along the run); while
    the baseline is not negative at the start and not above 2^53 at the
    end, the increments are the exact differences and add up to the final
    baseline minus the initial one; the lines "50% 5/10", "30% 3/10",
    "70% 7/10" from the baseline 0 give two reports, with increments 50
    and 20. *)
Theorem C3_increments_positive_and_telescoping (v : Variant) :
  (forall (last : JS.Number) (lines : list string),
      Forall (fun i => JS.gt i 0 = true)
        (percent_increments (snd (Build.run_from v last lines))))
  /\ (forall (last : JS.Number) (line : string),
        stays_or_grows last (fst (Build.on_line v last line)))
  /\ (forall (last : JS.Number) (pre post : list string),
        stays_or_grows last (fst (Build.run_from v last pre))
        /\ stays_or_grows (fst (Build.run_from v last pre))
             (fst (Build.run_from v last (pre ++ post))))
  /\ (forall (last final : Z) (lines : list string),
        0 <= last ->
        fst (Build.run_from v last lines) = JS.Finite final ->
        final <= 2 ^ 53 ->
        exists incs : list Z,
          percent_increments (snd (Build.run_from v last lines))
          = map JS.Finite incs
          /\ Forall (fun i => 0 < i) incs
          /\ sum_Z incs = final - last)
  /\ Build.run v ["50% 5/10"; "30% 3/10"; "70% 7/10"]
     = (70, [Report "Compiling" (Some 50); Report "Compiling" (Some 20)]).
Proof.
  split; [|split; [|split; [|split]]].
  - apply increments_positive.
  - apply on_line_baseline.
  - intros last pre post. split.
    + apply build_run_from_baseline.
    + rewrite build_run_from_app. simpl. apply build_run_from_baseline.
  - apply increments_sum.
  - destruct v; reflexivity.
Qed.

(** The theorem at the three lines, from the baseline 0 to 70. *)
Lemma C3_increments_witness :
  exists incs : list Z,
    percent_increments
      (snd (Build.run_from DirectPipe 0
              ["50% 5/10"; "30% 3/10"; "70% 7/10"]))
    = map JS.Finite incs
    /\ Forall (fun i => 0 < i) incs
    /\ sum_Z incs = 70 - 0.
Proof.
  destruct (C3_increments_positive_and_telescoping DirectPipe)
    as (_ & _ & _ & H & _).
  apply (H 0 70 ["50% 5/10"; "30% 3/10"; "70% 7/10"]);
    [lia | reflexivity | apply Z.leb_le; reflexivity].
Defined.

(** C3 as stated fails above 2^53, where the doubles are two apart: from
    the baseline 1 the advance to 9007199254740994 is reported with the
    increment 9007199254740992, the double nearest to the difference, and
    the two increments of the run add up to one less than the final
    baseline. *)
Lemma C3_counterexample_rounded_increment :
  (forall v : Variant,
      Build.run v ["1%"; "9007199254740994%"]
      = (9007199254740994,
         [Report "Compiling" (Some 1);
          Report "Compiling" (Some 9007199254740992)]))
  /\ sum_Z [1; 9007199254740992] <> 9007199254740994 - 0
  /\ ~ (forall (v : Variant) (last final : Z) (lines : list string)
               (incs : list Z),
          fst (Build.run_from v last lines) = JS.Finite final ->
          percent_increments (snd (Build.run_from v last lines))
          = map JS.Finite incs ->
          sum_Z incs = final - last).
Proof.
  split; [intros v; destruct v; reflexivity|]. split; [discriminate|].
  intros H.
  specialize (H DirectPipe 0 9007199254740994 ["1%"; "9007199254740994%"]
                [1; 9007199254740992] eq_refl eq_refl).
  discriminate H.
Qed.

(** ** The text the percent rule reads *)

Lemma split_not_nil sep s : JS.split sep s <> [].
Proof.
  destruct s as [|c s]; simpl; [discriminate|].
  destruct (Ascii.eqb c sep); [discriminate|].
  destruct (JS.split sep s); discriminate.
Qed.

Lemma first_split_lacks sep s :
  lacks sep s = true -> JS.split sep s = [s].
Proof.
  induction s as [|c s IH]; simpl; [reflexivity|].
  destruct (Ascii.eqb c sep); simpl; [discriminate|].
  intros H. now rewrite (IH H).
Qed.

Lemma first_split_app sep pre post :
  lacks sep pre = true ->
  JS.first (JS.split sep (pre +:+ String sep post)) = pre.
Proof.
  induction pre as [|c pre IH]; simpl.
  - now rewrite Ascii.eqb_refl.
  - destruct (Ascii.eqb c sep); simpl; [discriminate|].
    intros H. specialize (IH H).
    pose proof (split_not_nil sep (pre +:+ String sep post)) as Hne.
    destruct (JS.split sep (pre +:+ String sep post)); [easy|].
    simpl in *. now rewrite IH.
Qed.

(** The number is read from the text before the first percent sign. *)
Lemma buildProgress_of_before_percent pre post :
  lacks "%" pre = true ->
  Build.buildProgress_of (pre +:+ String "%" post) = JS.parseInt (JS.trim pre).
Proof.
  intros H. unfold Build.buildProgress_of. now rewrite first_split_app.
Qed.

(** A line with no percent sign is read whole. *)
Lemma buildProgress_of_no_percent line :
  lacks "%" line = true ->
  Build.buildProgress_of line = JS.parseInt (JS.trim line).
Proof.
  intros H. unfold Build.buildProgress_of. now rewrite first_split_lacks.
Qed.

Lemma parsed_percent_Some line bp :
  Build.parsed_percent line = Some bp <->
  JS.regex_test Build.regenerating_re line = false
  /\ Build.buildProgress_of line = bp
  /\ JS.isNaN bp = false.
Proof.
  unfold Build.parsed_percent.
  destruct (JS.regex_test Build.regenerating_re line).
  - split; [discriminate | now intros [? _]].
  - destruct (JS.isNaN (Build.buildProgress_of line)) eqn:Hnan; split.
    + discriminate.
    + intros (_ & <- & H). congruence.
    + intros [= <-]. auto.
    + now intros (_ & <- & _).
Qed.

Lemma advance_when_greater v last line bp :
  Build.parsed_percent line = Some bp -> JS.gt bp last = true ->
  Build.on_line v last line
  = (bp, Some (Report "Compiling" (Some (JS.sub bp last)))).
Proof.
  intros (Hregen & <- & Hnan)%parsed_percent_Some Hgt.
  unfold Build.on_line. rewrite Hregen. cbv zeta. now rewrite Hnan, Hgt.
Qed.

Lemma suppress_when_not_greater v last line bp :
  Build.parsed_percent line = Some bp -> JS.gt bp last = false ->
  Build.on_line v last line = (last, None).
Proof.
  intros (Hregen & <- & Hnan)%parsed_percent_Some Hgt.
  unfold Build.on_line. rewrite Hregen. cbv zeta. now rewrite Hnan, Hgt.
Qed.

Lemma advance_only_when_greater v last line inc :
  percent_advanced (snd (Build.on_line v last line)) = Some inc ->
  exists bp, Build.parsed_percent line = Some bp
             /\ JS.gt bp last = true /\ inc = JS.sub bp last.
Proof.
  destruct (on_line_rule v last line) as [| Hregen Hnan Hgt | | | |];
    simpl; try discriminate.
  intros [= <-]. exists (Build.buildProgress_of line).
  split; [|split]; try easy.
  now apply parsed_percent_Some.
Qed.

(** The difference of two doubles that hold integers is exact while it
    is not above 2^53 in magnitude. *)
Lemma sub_exact (n l : Z) :
  Z.abs (n - l) <= 2 ^ 53 -> JS.sub (JS.Finite n) (JS.Finite l) = JS.Finite (n - l).
Proof. intros H. simpl. now apply of_Z_exact. Qed.

(** C4, as the handler has it: a line gives a percentage advance exactly
    when it does not match the regenerating marker and the text before
    its first percent sign, or the whole line when it has none, starts
    after trimming with an integer that [parseInt] reads and that is
    strictly greater than the baseline; the report then has the message
    "Compiling" and as increment the difference of the two doubles, value
    minus baseline, which is the exact difference while that is not above
    2^53 in magnitude, and the baseline becomes the value. No percent sign
    is needed after the number. *)
Theorem C4_percent_rule_as_parsed
    (v : Variant) (last : JS.Number) (line : string) :
  (forall bp : JS.Number,
      Build.parsed_percent line = Some bp -> JS.gt bp last = true ->
      Build.on_line v last line
      = (bp, Some (Report "Compiling" (Some (JS.sub bp last)))))
  /\ (forall inc : JS.Number,
        percent_advanced (snd (Build.on_line v last line)) = Some inc ->
        exists bp, Build.parsed_percent line = Some bp
                   /\ JS.gt bp last = true /\ inc = JS.sub bp last)
  /\ (forall bp : JS.Number,
        Build.parsed_percent line = Some bp <->
        JS.regex_test Build.regenerating_re line = false
        /\ Build.buildProgress_of line = bp
        /\ JS.isNaN bp = false)
  /\ (forall n l : Z,
        Z.abs (n - l) <= 2 ^ 53 ->
        JS.sub (JS.Finite n) (JS.Finite l) = JS.Finite (n - l))
  /\ (forall pre post : string,
        line = pre +:+ String "%" post -> lacks "%" pre = true ->
        Build.buildProgress_of line = JS.parseInt (JS.trim pre))
  /\ (lacks "%" line = true ->
      Build.buildProgress_of line = JS.parseInt (JS.trim line)).
Proof.
  split; [|split; [|split; [|split; [|split]]]].
  - intros bp. apply advance_when_greater.
  - intros inc. apply advance_only_when_greater.
  - intros bp. apply parsed_percent_Some.
  - apply sub_exact.
  - intros pre post -> H. now apply buildProgress_of_before_percent.
  - apply buildProgress_of_no_percent.
Qed.

(** The theorem at the line "42% 21/50" over the baseline 10, and at
    "10 files", which has no percent sign. *)
Lemma C4_percent_rule_witness :
  Build.on_line SocketRelay 10 "42% 21/50"
  = (42, Some (Report "Compiling" (Some 32)))
  /\ JS.sub 42 10 = 32
  /\ Build.buildProgress_of "10 files" = 10.
Proof.
  destruct (C4_percent_rule_as_parsed SocketRelay 10 "42% 21/50")
    as (Hadv & _ & _ & Hsub & _).
  split; [|split].
  - exact (Hadv 42 eq_refl eq_refl).
  - apply (Hsub 42 10). apply Z.leb_le. reflexivity.
  - destruct (C4_percent_rule_as_parsed SocketRelay 0 "10 files")
      as (_ & _ & _ & _ & _ & H).
    rewrite (H eq_refl). reflexivity.
Defined.

(** C4 as stated fails: "10 files" has no percent sign after its leading
    number, and the handler reports a percentage advance of 10 on it. *)
Lemma C4_counterexample_no_percent_sign :
  leading_percent_token "10 files" = false
  /\ Build.on_line DirectPipe 0 "10 files"
     = (10, Some (Report "Compiling" (Some 10)))
  /\ Build.on_line SocketRelay 0 "10 files"
     = (10, Some (Report "Compiling" (Some 10)))
  /\ ~ (forall v last line,
          leading_percent_token line = false ->
          percent_advanced (snd (Build.on_line v last line)) = None).
Proof.
  split; [reflexivity|]. split; [reflexivity|]. split; [reflexivity|].
  intros H. specialize (H DirectPipe 0 "10 files" eq_refl). discriminate H.
Qed.

(** ** Literal patterns *)

Lemma strip_prefix_app p s : JS.strip_prefix p (p +:+ s) = Some s.
Proof.
  induction p as [|a p IH]; simpl; [reflexivity|].
  now rewrite Ascii.eqb_refl.
Qed.

Lemma strip_prefix_Some p s r : JS.strip_prefix p s = Some r -> s = p +:+ r.
Proof.
  revert s. induction p as [|a p IH]; intros s; simpl.
  - now intros [= ->].
  - destruct s as [|b s]; [discriminate|].
    destruct (Ascii.eqb_spec a b) as [->|]; [|discriminate].
    intros H. now rewrite (IH _ H).
Qed.

Lemma regex_test_skip lits pre s :
  JS.regex_test lits s = true -> JS.regex_test lits (pre +:+ s) = true.
Proof.
  intros H. induction pre as [|c pre IH]; simpl; [exact H|].
  rewrite IH. apply orb_true_r.
Qed.

Lemma regex_test_here lits s :
  JS.match_here lits s = true -> JS.regex_test lits s = true.
Proof. intros H. destruct s; simpl; rewrite H; reflexivity. Qed.

(** A pattern of one literal piece tests for a substring. *)
Lemma regex_test_literal marker line :
  JS.regex_test [marker] line = true <-> contains marker line.
Proof.
  split.
  - induction line as [|c line IH]; simpl.
    + rewrite orb_false_r.
      destruct (JS.strip_prefix marker "") as [r|] eqn:Hp; [|discriminate].
      intros _. exists "", r. exact (strip_prefix_Some _ _ _ Hp).
    + destruct (JS.strip_prefix marker (String c line)) as [r|] eqn:Hp.
      * intros _. exists "", r. exact (strip_prefix_Some _ _ _ Hp).
      * simpl. intros H. destruct (IH H) as (pre & post & ->).
        now exists (String c pre), post.
  - intros (pre & post & ->). apply regex_test_skip, regex_test_here.
    simpl. now rewrite strip_prefix_app.
Qed.

(** C5, as the handler has it: a line that contains the marker
    "Regenerating ninja files" in exactly this capitalization is reported
    as the phase "Regenerating Ninja Files" with increment 0, the baseline
    stays, and the rule comes before the percent rule: what the line
    would parse to plays no part. *)
Theorem C5_regenerating_marker_as_written
    (v : Variant) (last : JS.Number) (line : string) :
  contains "Regenerating ninja files" line ->
  Build.on_line v last line
  = (last, Some (Report "Regenerating Ninja Files" (Some 0))).
Proof.
  intros H%regex_test_literal. unfold Build.on_line.
  unfold Build.regenerating_re. now rewrite H.
Qed.

(** The theorem at a line that the percent rule would otherwise take. *)
Lemma C5_regenerating_marker_witness :
  Build.buildProgress_of "50% Regenerating ninja files" = 50
  /\ Build.on_line DirectPipe 0 "50% Regenerating ninja files"
     = (0, Some (Report "Regenerating Ninja Files" (Some 0))).
Proof.
  split; [reflexivity|].
  apply (C5_regenerating_marker_as_written DirectPipe 0
           "50% Regenerating ninja files").
  exists "50% ", "". reflexivity.
Defined.

(** C5 as stated fails: the upper-case line matches the marker when case
    is ignored, and the handler, whose pattern has no such flag, reports
    nothing on it. *)
Lemma C5_counterexample_upper_case :
  regex_test_ignoring_case Build.regenerating_re "REGENERATING NINJA FILES"
  = true
  /\ Build.on_line DirectPipe 0 "REGENERATING NINJA FILES" = (0, None)
  /\ Build.on_line SocketRelay 0 "REGENERATING NINJA FILES" = (0, None)
  /\ ~ (forall v last line,
          regex_test_ignoring_case Build.regenerating_re line = true ->
          Build.on_line v last line
          = (last, Some (Report "Regenerating Ninja Files" (Some 0)))).
Proof.
  split; [reflexivity|]. split; [reflexivity|]. split; [reflexivity|].
  intros H. specialize (H DirectPipe 0 "REGENERATING NINJA FILES" eq_refl).
  discriminate H.
Qed.

(** C6: the four lines "Running ninja...", "10% 5/50", "25% 12/50",
    "30% 15/50" of a build give the reports Starting, Compiling 10,
    Compiling 15, Compiling 5, in this order and no other, and the
    percentage shown at the end is 30; in both revisions. *)
Theorem C6_build_scenario (v : Variant) :
  Build.run v ["Running ninja..."; "10% 5/50"; "25% 12/50"; "30% 15/50"]
  = (30, [Report "Starting" None; Report "Compiling" (Some 10);
          Report "Compiling" (Some 15); Report "Compiling" (Some 5)])
  /\ cumulative
       (snd (Build.run v
               ["Running ninja..."; "10% 5/50"; "25% 12/50"; "30% 15/50"]))
     = 30.
Proof. destruct v; split; reflexivity. Qed.

(** ** The baseline at the start *)

(** Nothing that is 0 or less is above the baseline of a build. *)
Lemma build_run_not_above v lines bp :
  JS.gt bp 0 = false -> JS.gt bp (fst (Build.run v lines)) = false.
Proof.
  intros H. destruct (JS.gt bp (fst (Build.run v lines))) eqn:Hgt; [|reflexivity].
  pose proof (build_run_from_baseline v Build.initial lines) as Hmono.
  apply (stays_or_grows_gt bp) in Hmono; [|exact Hgt].
  unfold Build.initial in Hmono. congruence.
Qed.

Lemma no_advance_keeps_baseline v last lines :
  percent_increments (snd (Build.run_from v last lines)) = [] ->
  fst (Build.run_from v last lines) = last.
Proof.
  revert last. induction lines as [|line rest IH]; intros last; [reflexivity|].
  rewrite build_run_from_cons. simpl. rewrite percent_increments_app.
  destruct (on_line_increment v last line) as [[-> Heq]|[-> _]].
  - rewrite Heq. apply IH.
  - discriminate.
Qed.

(** C10, as the handler has it: the baseline of a build starts at 0, so
    at any point of the operation a line that reaches the percent rule (it
    does not match the regenerating marker) with a value of 0 or less is
    reported as nothing and leaves the baseline as it is ("0% 0/10" as the
    first line, a negative value); and the first percentage advance of an
    operation carries its parsed value, strictly positive, as its
    increment. *)
Theorem C10_baseline_starts_at_zero (v : Variant) :
  Build.initial = 0
  /\ (forall (before : list string) (line : string),
        JS.regex_test Build.regenerating_re line = false ->
        JS.isNaN (Build.buildProgress_of line) = false ->
        JS.gt (Build.buildProgress_of line) 0 = false ->
        Build.on_line v (fst (Build.run v before)) line
        = (fst (Build.run v before), None))
  /\ Build.run v ["0% 0/10"] = (0, [])
  /\ Build.run v ["-5% 0/10"] = (0, [])
  /\ (forall (before : list string) (line : string) (inc : JS.Number),
        percent_increments (snd (Build.run v before)) = [] ->
        percent_advanced
          (snd (Build.on_line v (fst (Build.run v before)) line)) = Some inc ->
        JS.gt inc 0 = true
        /\ JS.regex_test Build.regenerating_re line = false
        /\ Build.buildProgress_of line = inc).
Proof.
  split; [reflexivity|]. split; [|split; [|split]].
  - intros before line Hregen Hnan Hle.
    apply suppress_when_not_greater with (Build.buildProgress_of line).
    + now apply parsed_percent_Some.
    + now apply build_run_not_above.
  - destruct v; reflexivity.
  - destruct v; reflexivity.
  - intros before line inc Hnone Hadv.
    apply no_advance_keeps_baseline in Hnone. unfold Build.run in *.
    rewrite Hnone in Hadv.
    destruct (advance_only_when_greater _ _ _ _ Hadv)
      as (bp & (Hregen & <- & _)%parsed_percent_Some & Hgt & ->).
    unfold Build.initial in *. split; [now apply gt_sub_pos|].
    split; [exact Hregen|].
    unfold Build.buildProgress_of. symmetry. apply parseInt_sub_zero.
Qed.

(** The theorem after a first advance to 5, at a line that parses to -3,
    and at the first advance of a run that began with "0% 0/10". *)
Lemma C10_baseline_witness :
  Build.on_line DirectPipe (fst (Build.run DirectPipe ["5% 1/20"])) "-3% x"
  = (5, None)
  /\ (JS.gt 7 0 = true
      /\ JS.regex_test Build.regenerating_re "7% 1/14" = false
      /\ Build.buildProgress_of "7% 1/14" = 7).
Proof.
  destruct (C10_baseline_starts_at_zero DirectPipe) as (_ & Hle & _ & _ & Hfirst).
  split.
  - apply (Hle ["5% 1/20"] "-3% x"); reflexivity.
  - apply (Hfirst ["0% 0/10"] "7% 1/14" 7); reflexivity.
Defined.

(** C10 as stated fails on a line that matches the regenerating marker:
    the text before its percent sign parses to 0, which is not above the
    baseline, and the handler, which tests the marker first, makes a
    report on it. *)
Lemma C10_counterexample_regenerating_line :
  Build.buildProgress_of "  0% 0/1 Regenerating ninja files" = 0
  /\ (forall v : Variant,
        Build.run v ["  0% 0/1 Regenerating ninja files"]
        = (0, [Report "Regenerating Ninja Files" (Some 0)]))
  /\ ~ (forall (v : Variant) (line : string),
          JS.isNaN (Build.buildProgress_of line) = false ->
          JS.gt (Build.buildProgress_of line) 0 = false ->
          snd (Build.on_line v Build.initial line) = None).
Proof.
  split; [reflexivity|]. split; [intros v; destruct v; reflexivity|].
  intros H.
  specialize (H DirectPipe "  0% 0/1 Regenerating ninja files"
                eq_refl eq_refl).
  discriminate H.
Qed.

(** ** The sync handler *)

Lemma sync_run_from_cons ip line rest :
  Sync.run_from ip (line :: rest)
  = (fst (Sync.run_from (fst (Sync.on_line ip line)) rest),
     (option_list (snd (Sync.on_line ip line))
      ++ snd (Sync.run_from (fst (Sync.on_line ip line)) rest))%list).
Proof.
  simpl. destruct (Sync.on_line ip line) as [ip' r]. simpl.
  now destruct (Sync.run_from ip' rest).
Qed.

Lemma sync_unmarked_first line :
  unmarked line -> Sync.on_line false line = (true, Some (Report "Dependencies" None)).
Proof. intros [H1 H2]. unfold Sync.on_line. now rewrite H1, H2. Qed.

Lemma sync_unmarked_later line :
  unmarked line -> Sync.on_line true line = (true, None).
Proof. intros [H1 H2]. unfold Sync.on_line. now rewrite H1, H2. Qed.

Lemma sync_patches_marker ip line :
  JS.regex_test Sync.running_patches_re line = true ->
  Sync.on_line ip line = (ip, Some (Report "Applying Patches" None)).
Proof. intros H. unfold Sync.on_line. now rewrite H. Qed.

(** Once the first report is made, unmarked lines are silent, and the
    next patch-application marker is reported. *)
Lemma sync_later_then_marker lines marker :
  Forall unmarked lines ->
  JS.regex_test Sync.running_patches_re marker = true ->
  Sync.run_from true (lines ++ [marker])
  = (true, [Report "Applying Patches" None]).
Proof.
  intros Hall Hm. induction Hall as [|line lines Hline _ IH].
  - simpl. now rewrite (sync_patches_marker true marker Hm).
  - rewrite <- app_comm_cons, sync_run_from_cons.
    rewrite (sync_unmarked_later line Hline). simpl. now rewrite IH.
Qed.

Lemma sync_later_silent lines :
  Forall unmarked lines -> Sync.run_from true lines = (true, []).
Proof.
  intros Hall. induction Hall as [|line lines Hline _ IH]; [reflexivity|].
  rewrite sync_run_from_cons, (sync_unmarked_later line Hline). simpl.
  now rewrite IH.
Qed.

(** C7: for a sync, ten lines that match no marker and then a line that
    matches the patch-application marker give one report "Dependencies",
    made on the first of the ten and not again on the other nine, and
    then one report "Applying Patches"; a line that matches the
    elapsed-time marker of the patch script, the patch-application marker
    being tested first, is reported as "Finishing Up". *)
Theorem C7_dependencies_once_then_patches :
  (forall (lines : list string) (marker : string),
      length lines = 10%nat ->
      Forall unmarked lines ->
      JS.regex_test Sync.running_patches_re marker = true ->
      Sync.run (lines ++ [marker])
      = (true, [Report "Dependencies" None; Report "Applying Patches" None]))
  /\ (forall (line : string) (rest : list string),
        unmarked line -> Forall unmarked rest ->
        Sync.on_line false line = (true, Some (Report "Dependencies" None))
        /\ Sync.run_from true rest = (true, []))
  /\ (forall (initialProgress : bool) (line : string),
        JS.regex_test Sync.running_patches_re line = false ->
        JS.regex_test Sync.hook_took_re line = true ->
        Sync.on_line initialProgress line
        = (initialProgress, Some (Report "Finishing Up" None))).
Proof.
  split; [|split].
  - intros lines marker Hlen Hall Hm.
    destruct lines as [|line lines]; [discriminate|].
    apply Forall_cons in Hall as [Hline Hall].
    unfold Sync.run. rewrite <- app_comm_cons, sync_run_from_cons.
    rewrite (sync_unmarked_first line Hline). simpl.
    now rewrite (sync_later_then_marker lines marker Hall Hm).
  - intros line rest Hline Hrest. split.
    + now apply sync_unmarked_first.
    + now apply sync_later_silent.
  - intros ip line H1 H2. unfold Sync.on_line. now rewrite H1, H2.
Qed.

(** The theorem at ten lines of a sync's output and the line that starts
    the patch script, and at the line that ends it. *)
Lemma C7_dependencies_once_witness :
  Sync.run
    (["Syncing projects:   0% ( 0/ 2)"; "________ running 'git fetch'";
      "1> Cloning into src"; "1> remote: Counting objects"; "[0:00:01] Still working on:";
      "[0:00:01]   src"; "Syncing projects: 100% (2/2), done."; "Running hooks:  14% ( 1/ 7)";
      "Running hooks:  57% ( 4/ 7)"; "Running hooks: 100% ( 7/ 7) apply_patches"]
     ++ ["________ running 'python3 src/electron/script/apply_all_patches.py' in '/src'"])
  = (true, [Report "Dependencies" None; Report "Applying Patches" None])
  /\ Sync.on_line true
       "Hook 'python3 src/electron/script/apply_all_patches.py' took 33.05 secs"
     = (true, Some (Report "Finishing Up" None)).
Proof.
  destruct C7_dependencies_once_then_patches as (Hten & _ & Hhook).
  split.
  - apply Hten; [reflexivity | | reflexivity].
    repeat (apply Forall_cons; split; [split; reflexivity|]).
    constructor.
  - apply Hhook; reflexivity.
Defined.

(** The first match wins: a line that matches both markers is reported
    as "Applying Patches". *)
Example sync_both_markers :
  JS.regex_test Sync.hook_took_re
    "Hook 'python3 running/apply_all_patches.py' took 3.10 secs" = true
  /\ Sync.on_line true
       "Hook 'python3 running/apply_all_patches.py' took 3.10 secs"
     = (true, Some (Report "Applying Patches" None)).
Proof. split; reflexivity. Qed.

(** ** The environment of the build *)

(** C8: for every environment of the caller, the environment of the
    build's child process holds every variable of the caller other than
    NINJA_STATUS with its value unchanged, holds NINJA_STATUS with the
    status format, and has the caller's variables and NINJA_STATUS as its
    variables: none is dropped. *)
Theorem C8_environment_preserved (process_env : gmap string string) :
  (forall k : string,
      k <> Env.NINJA_STATUS ->
      Env.buildEnv process_env !! k = process_env !! k)
  /\ Env.buildEnv process_env !! Env.NINJA_STATUS = Some "%p %f/%t "
  /\ dom (Env.buildEnv process_env) = dom process_env ∪ {[Env.NINJA_STATUS]}.
Proof.
  unfold Env.buildEnv. split; [|split].
  - intros k Hk. now rewrite lookup_insert_ne.
  - now rewrite lookup_insert_eq.
  - rewrite dom_insert_L. apply union_comm_L.
Qed.

(** The theorem at an environment with PATH and HOME. *)
Lemma C8_environment_witness :
  Env.buildEnv (<["PATH" := "/usr/bin"]> (<["HOME" := "/root"]> ∅)) !! "PATH"
  = Some "/usr/bin".
Proof.
  rewrite (proj1 (C8_environment_preserved
                    (<["PATH" := "/usr/bin"]> (<["HOME" := "/root"]> ∅))) "PATH").
  - now rewrite lookup_insert_eq.
  - discriminate.
Defined.

(** The status format is set whatever the caller had there. *)
Example env_status_format_set :
  Env.buildEnv {[ "NINJA_STATUS" := "[%f/%t] " ]} !! "NINJA_STATUS"
  = Some "%p %f/%t ".
Proof. reflexivity. Qed.

(** ** Settlement when the pipe is read *)



Lemma errors_shown_app l1 l2 :
  errors_shown (l1 ++ l2) = (errors_shown l1 ++ errors_shown l2)%list.
Proof. unfold errors_shown. apply omap_app. Qed.

Lemma pipe_run_from_app op st pre post :
  Pipe.run_from op st (pre ++ post)
  = Pipe.run_from op (Pipe.run_from op st pre) post.
Proof. unfold Pipe.run_from. apply fold_left_app. Qed.

(** The first signal settles the promise, whichever it is. *)
Lemma pipe_step_pending op st sig :
  Pipe.promise st = Pending ->
  Pipe.promise (Pipe.step op st sig) = Fulfilled
  /\ Pipe.settled_by (Pipe.step op st sig) = Some sig.
Proof.
  destruct st as [k p sb lg]. simpl. intros ->.
  destruct sig as [msg|code|]; simpl; auto.
  destruct (truthy code && negb k && not_zero code); simpl; auto.
Qed.

(** A settled promise stays as it is. *)
Lemma pipe_step_settled op st sig :
  Pipe.promise st <> Pending ->
  Pipe.promise (Pipe.step op st sig) = Pipe.promise st
  /\ Pipe.settled_by (Pipe.step op st sig) = Pipe.settled_by st.
Proof.
  destruct st as [k p sb lg]. simpl. intros Hp.
  destruct sig as [msg|code|]; unfold Pipe.step, Pipe.resolve; simpl.
  - destruct p; simpl; auto. now contradict Hp.
  - destruct (truthy code && negb k && not_zero code); simpl;
      destruct p; simpl; auto; now contradict Hp.
  - destruct p; simpl; auto. now contradict Hp.
Qed.

Lemma pipe_run_from_settled op st sigs :
  Pipe.promise st <> Pending ->
  Pipe.promise (Pipe.run_from op st sigs) = Pipe.promise st
  /\ Pipe.settled_by (Pipe.run_from op st sigs) = Pipe.settled_by st.
Proof.
  revert st. induction sigs as [|sig sigs IH]; intros st Hp; [now split|].
  simpl. destruct (pipe_step_settled op st sig Hp) as [H1 H2].
  destruct (IH (Pipe.step op st sig)) as [H3 H4]; [now rewrite H1|].
  split; congruence.
Qed.

Lemma pipe_first_signal_wins op sig sigs :
  Pipe.promise (Pipe.run op (sig :: sigs)) = Fulfilled
  /\ Pipe.settled_by (Pipe.run op (sig :: sigs)) = Some sig.
Proof.
  unfold Pipe.run. simpl.
  destruct (pipe_step_pending op Pipe.initial sig eq_refl) as [H1 H2].
  destruct (pipe_run_from_settled op (Pipe.step op Pipe.initial sig) sigs)
    as [H3 H4]; [now rewrite H1|].
  split; congruence.
Qed.

(** [killed] is never reset. *)
Lemma pipe_step_killed op st sig :
  Pipe.killed st = true -> Pipe.killed (Pipe.step op st sig) = true.
Proof.
  destruct st as [k p sb lg]. simpl. intros ->.
  destruct sig as [msg|code|]; unfold Pipe.step, Pipe.resolve; simpl.
  - now destruct p.
  - rewrite andb_false_r. simpl. now destruct p.
  - now destruct p.
Qed.

Lemma pipe_run_from_killed op st sigs :
  Pipe.killed st = true -> Pipe.killed (Pipe.run_from op st sigs) = true.
Proof.
  revert st. induction sigs as [|sig sigs IH]; intros st Hk; [exact Hk|].
  simpl. apply IH. now apply pipe_step_killed.
Qed.

Lemma pipe_cancel_kills op st :
  Pipe.killed (Pipe.step op st Pipe.CancellationRequested) = true.
Proof.
  destruct st as [k p sb lg]. unfold Pipe.step, Pipe.resolve. simpl.
  now destruct p.
Qed.

(** After [killed] is set, an exit leaves the effects as they were. *)
Lemma pipe_exit_when_killed op st code :
  Pipe.killed st = true ->
  Pipe.log (Pipe.step op st (Pipe.ProcessExit code)) = Pipe.log st.
Proof.
  destruct st as [k p sb lg]. simpl. intros ->.
  unfold Pipe.step, Pipe.resolve. rewrite andb_false_r. simpl.
  now destruct p.
Qed.

(** When the cancellation comes first, whatever follows, an exit with
    any code shows no message and the operation is settled by the
    cancellation. *)
Lemma pipe_cancel_suppresses_failure op mid code :
  Pipe.log (Pipe.run op (Pipe.CancellationRequested :: mid ++ [Pipe.ProcessExit code]))
  = Pipe.log (Pipe.run op (Pipe.CancellationRequested :: mid))
  /\ Pipe.settled_by
       (Pipe.run op (Pipe.CancellationRequested :: mid ++ [Pipe.ProcessExit code]))
     = Some Pipe.CancellationRequested.
Proof.
  split.
  - unfold Pipe.run. rewrite app_comm_cons, pipe_run_from_app. simpl.
    apply pipe_exit_when_killed, pipe_run_from_killed, pipe_cancel_kills.
  - apply pipe_first_signal_wins.
Qed.



(** ** Settlement when the output is relayed *)






(** C1: a cancellation and then an exit with a nonzero code. Where the
    pipe is read the exit shows no message, whatever came between the two
    and whatever the code, and the operation is settled by the
    cancellation. Where the output is relayed the operation is settled by
    the cancellation too, and the exit code 1 of the task's process is
    shown as a failure all the same. *)
Theorem C1_cancel_then_failing_exit :
  (forall (op : Operation) (mid : list Pipe.Signal) (code : option Z),
      Pipe.log (Pipe.run op (Pipe.CancellationRequested
                              :: mid ++ [Pipe.ProcessExit code]))
      = Pipe.log (Pipe.run op (Pipe.CancellationRequested :: mid))
      /\ Pipe.settled_by
           (Pipe.run op (Pipe.CancellationRequested
                          :: mid ++ [Pipe.ProcessExit code]))
         = Some Pipe.CancellationRequested)
  /\ errors_shown
       (Pipe.log (Pipe.run build_operation
                    [Pipe.CancellationRequested; Pipe.ProcessExit (Some 1)]))
     = []
  /\ (forall te : Relay.Execution,
        errors_shown
          (Relay.log (Relay.run build_operation te
                        [Relay.CancellationRequested;
                         Relay.TaskProcessEnded te (Some 1)]))
        = ["'Electron Build Tools - Building' failed with exit code 1"]
        /\ Relay.settled_by
             (Relay.run build_operation te
                [Relay.CancellationRequested;
                 Relay.TaskProcessEnded te (Some 1)])
           = Some Relay.CancellationRequested).
Proof.
  split; [|split].
  - intros op mid code. apply pipe_cancel_suppresses_failure.
  - reflexivity.
  - intros te. unfold Relay.run, Relay.operation, Relay.run_from. simpl.
    unfold Relay.step, Relay.handler, Relay.finally. simpl.
    rewrite Nat.eqb_refl. simpl. split; reflexivity.
Qed.






(** ** The name of the local endpoint *)

Lemma app_cons c s t : String c s +:+ t = String c (s +:+ t).
Proof. reflexivity. Qed.

Lemma app_empty_l s : "" +:+ s = s.
Proof. reflexivity. Qed.

Lemma app_assoc_r s t u : (s +:+ t) +:+ u = s +:+ (t +:+ u).
Proof.
  induction s as [|c s IH]; [reflexivity|].
  now rewrite !app_cons, IH.
Qed.

Lemma app_cons_not_empty s c t : String.eqb (s +:+ String c t) "" = false.
Proof. destruct s; reflexivity. Qed.

Lemma split_app_sep sep dir seg :
  lacks sep seg = true ->
  JS.split sep (dir +:+ String sep seg) = (JS.split sep dir ++ [seg])%list.
Proof.
  intros H. induction dir as [|c dir IH].
  - rewrite app_empty_l. simpl.
    now rewrite Ascii.eqb_refl, (first_split_lacks _ _ H).
  - rewrite app_cons. simpl. destruct (Ascii.eqb c sep).
    + now rewrite IH.
    + rewrite IH. pose proof (split_not_nil sep dir) as Hne.
      now destruct (JS.split sep dir).
Qed.

(** A segment that does not start with a dot is kept. *)
Lemma push_ordinary allow kept c rest :
  c <> "."%char ->
  Path.push allow kept (String c rest) = String c rest :: kept.
Proof.
  intros Hc. unfold Path.push. simpl.
  destruct (Ascii.eqb_spec c "."); [contradiction|]. reflexivity.
Qed.

Lemma concat_snoc l seg :
  String.concat "/" (l ++ [seg])
  = match l with
    | [] => seg
    | _ :: _ => String.concat "/" l +:+ "/" +:+ seg
    end.
Proof.
  induction l as [|x l IH]; [reflexivity|].
  destruct l as [|y l]; [reflexivity|].
  change (String.concat "/" ((x :: y :: l) ++ [seg]))
    with (x +:+ "/" +:+ String.concat "/" ((y :: l) ++ [seg])).
  rewrite IH.
  change (String.concat "/" (x :: y :: l))
    with (x +:+ "/" +:+ String.concat "/" (y :: l)).
  now rewrite !app_assoc_r.
Qed.

Lemma ends_with_sep_app s c t :
  Path.ends_with_sep (s +:+ String c t) = Path.ends_with_sep (String c t).
Proof.
  induction s as [|x s IH]; [reflexivity|].
  rewrite app_cons, <- IH. now destruct s.
Qed.

Lemma ends_with_sep_lacks s :
  lacks Path.sep s = true -> Path.ends_with_sep s = false.
Proof.
  induction s as [|c s IH]; [reflexivity|]. simpl.
  destruct (Ascii.eqb c Path.sep); [discriminate|]. simpl.
  intros H. specialize (IH H). now destruct s.
Qed.

Lemma kept_segments_app_sep allow dir c rest :
  c <> "."%char ->
  lacks Path.sep (String c rest) = true ->
  Path.kept_segments allow (dir +:+ String Path.sep (String c rest))
  = String c rest :: Path.kept_segments allow dir.
Proof.
  intros Hc Hl. unfold Path.kept_segments.
  rewrite (split_app_sep _ _ _ Hl), fold_left_app. simpl.
  now apply push_ordinary.
Qed.

(** [join] of a directory and one ordinary segment. *)
Lemma join_dir_segment dir c rest :
  c <> "."%char ->
  lacks Path.sep (String c rest) = true ->
  Path.join [dir; String c rest] = dir_prefix dir +:+ String c rest.
Proof.
  intros Hc Hl.
  assert (Hc' : Ascii.eqb c Path.sep = false).
  { simpl in Hl. now destruct (Ascii.eqb c Path.sep). }
  destruct dir as [|a dir].
  - change (Path.join [""; String c rest])
      with (Path.normalize (String c rest)).
    unfold Path.normalize.
    change (String.eqb (String c rest) "") with false. cbv iota.
    change (Path.is_absolute (String c rest)) with (Ascii.eqb c Path.sep).
    rewrite Hc', (ends_with_sep_lacks _ Hl).
    unfold Path.normalizeString, Path.kept_segments.
    rewrite (first_split_lacks _ _ Hl).
    change (fold_left (Path.push (negb false)) [String c rest] [])
      with (Path.push (negb false) [] (String c rest)).
    now rewrite (push_ordinary _ _ _ _ Hc).
  - change (Path.join [String a dir; String c rest])
      with (Path.normalize (String a dir +:+ String Path.sep (String c rest))).
    unfold Path.normalize, Path.normalizeString. cbv zeta.
    rewrite (kept_segments_app_sep _ _ _ _ Hc Hl).
    rewrite ends_with_sep_app.
    change (Path.ends_with_sep (String Path.sep (String c rest)))
      with (Path.ends_with_sep (String c rest)).
    rewrite (ends_with_sep_lacks _ Hl).
    change (Path.is_absolute (String a dir +:+ String Path.sep (String c rest)))
      with (Path.is_absolute (String a dir)).
    rewrite app_cons_not_empty.
    unfold dir_prefix.
    generalize (Path.kept_segments (negb (Path.is_absolute (String a dir)))
                  (String a dir)) as kept.
    generalize (Path.is_absolute (String a dir)) as isAbsolute.
    intros isAbsolute kept. simpl rev. rewrite concat_snoc.
    destruct (rev kept) as [|x l].
    + change (String.eqb (String c rest) "") with false.
      now destruct isAbsolute.
    + rewrite app_assoc_r.
      change ("/" +:+ String c rest) with (String "/" (String c rest)).
      rewrite app_cons_not_empty.
      destruct isAbsolute; now rewrite ?app_empty_l, ?app_assoc_r.
Qed.

Lemma dir_prefix_clean dir :
  Path.is_clean_dir dir = true -> dir_prefix dir = dir +:+ "/".
Proof.
  unfold Path.is_clean_dir. intros H.
  apply andb_prop in H as [H Hdot]. apply andb_prop in H as [Hnorm Hsep].
  apply String.eqb_eq in Hnorm.
  apply negb_true_iff in Hsep. apply negb_true_iff, String.eqb_neq in Hdot.
  unfold dir_prefix.
  unfold Path.normalize, Path.normalizeString in Hnorm. cbv zeta in Hnorm.
  rewrite Hsep in Hnorm. revert Hnorm.
  generalize (Path.kept_segments (negb (Path.is_absolute dir)) dir) as kept.
  generalize (Path.is_absolute dir) as isAbsolute.
  intros isAbsolute kept.
  destruct (String.eqb_spec dir "") as [->|_]; [discriminate|].
  destruct (rev kept) as [|x l].
  - change (String.eqb (String.concat "/" []) "") with true. cbv iota.
    destruct isAbsolute; intros <-; [discriminate Hsep | now contradict Hdot].
  - destruct (String.eqb (String.concat "/" (x :: l)) "").
    + destruct isAbsolute; intros <-; [discriminate Hsep | now contradict Hdot].
    + destruct isAbsolute; intros <-; now rewrite ?app_empty_l, ?app_assoc_r.
Qed.

Lemma app_cancel_l s t u : s +:+ t = s +:+ u -> t = u.
Proof.
  induction s as [|c s IH]; [easy|].
  rewrite !app_cons. intros [= H]. auto.
Qed.

Lemma lacks_app c s t : lacks c (s +:+ t) = lacks c s && lacks c t.
Proof.
  induction s as [|a s IH]; [reflexivity|].
  rewrite app_cons. simpl. rewrite IH. now rewrite andb_assoc.
Qed.

(** The name on a platform other than Windows, for a token without
    separator. *)
Lemma posix_socket_name tmpdir uuid :
  lacks Path.sep uuid = true ->
  Path.join [tmpdir; "socket-" +:+ uuid]
  = dir_prefix tmpdir +:+ "socket-" +:+ uuid.
Proof.
  intros H.
  change ("socket-" +:+ uuid) with (String "s" ("ocket-" +:+ uuid)).
  apply join_dir_segment; [discriminate|].
  change (String "s" ("ocket-" +:+ uuid)) with ("socket-" +:+ uuid).
  rewrite lacks_app, H. reflexivity.
Qed.

Lemma token_supply_lacks n : lacks Path.sep (token_supply n) = true.
Proof. induction n as [|n IH]; [reflexivity|]. simpl. exact IH. Qed.

Lemma token_supply_inj i j : token_supply i = token_supply j -> i = j.
Proof.
  revert j. induction i as [|i IH]; intros [|j]; simpl;
    try discriminate; [reflexivity|].
  intros [= H]. now rewrite (IH j H).
Qed.

(** C9, as the code has it: the name of the endpoint is the named pipe
    path \\.\pipe\ followed by the token on Windows, and elsewhere the
    join of the temporary directory and socket- followed by the token,
    which for a directory in normal form and a token without separator is
    the directory, a separator, socket- and the token; and two calls get
    the same name exactly when [uuidv4] gave them the same token. *)
Theorem C9_socket_name_form_and_distinct
    (platform tmpdir : string) (uuidv4 : nat -> string) :
  (forall n : nat,
      platform = "win32" ->
      SocketName.nth_call platform tmpdir uuidv4 n = "\\.\pipe\" +:+ uuidv4 n)
  /\ (forall n : nat,
        platform <> "win32" ->
        SocketName.nth_call platform tmpdir uuidv4 n
        = Path.join [tmpdir; "socket-" +:+ uuidv4 n])
  /\ (forall n : nat,
        platform <> "win32" ->
        Path.is_clean_dir tmpdir = true ->
        lacks Path.sep (uuidv4 n) = true ->
        SocketName.nth_call platform tmpdir uuidv4 n
        = tmpdir +:+ "/socket-" +:+ uuidv4 n)
  /\ (forall i j : nat,
        lacks Path.sep (uuidv4 i) = true ->
        lacks Path.sep (uuidv4 j) = true ->
        (SocketName.nth_call platform tmpdir uuidv4 i
         = SocketName.nth_call platform tmpdir uuidv4 j
         <-> uuidv4 i = uuidv4 j)).
Proof.
  unfold SocketName.nth_call, SocketName.generateSocketName.
  split; [|split; [|split]].
  - intros n ->. reflexivity.
  - intros n Hp. apply String.eqb_neq in Hp. now rewrite Hp.
  - intros n Hp Hclean Hlacks. apply String.eqb_neq in Hp. rewrite Hp.
    rewrite (posix_socket_name _ _ Hlacks), (dir_prefix_clean _ Hclean).
    now rewrite app_assoc_r.
  - intros i j Hi Hj. split; [|now intros ->].
    destruct (String.eqb platform "win32").
    + now intros Heq%app_cancel_l.
    + rewrite !posix_socket_name by assumption.
      now intros Heq%app_cancel_l%app_cancel_l.
Qed.

(** The theorem on Linux with the temporary directory /tmp: the name of
    the first call, and the names of the first two calls, whose tokens
    differ. *)
Lemma C9_socket_name_witness :
  SocketName.nth_call "linux" "/tmp" token_supply 0
  = "/tmp/socket-1b9d6bcd-bbfd-4b2d-9b5d-ab8dfbbd4bed"
  /\ SocketName.nth_call "linux" "/tmp" token_supply 0
     <> SocketName.nth_call "linux" "/tmp" token_supply 1.
Proof.
  destruct (C9_socket_name_form_and_distinct "linux" "/tmp" token_supply)
    as (_ & _ & Hform & Hsame).
  split.
  - apply (Hform 0%nat); [discriminate | reflexivity | reflexivity].
  - intros Heq.
    apply (Hsame 0%nat 1%nat) in Heq; [discriminate Heq | reflexivity..].
Defined.

(** C9 as stated fails twice. With a temporary directory that is not in
    normal form the name is the normal form of the join, not the
    directory followed by a separator, socket- and the token; and the
    name has nothing of its own that would tell two calls apart, so that
    calls with the same token get the same name. *)
Lemma C9_counterexample_directory_and_token :
  SocketName.generateSocketName "linux" "/tmp/build/.."
    "1b9d6bcd-bbfd-4b2d-9b5d-ab8dfbbd4bed"
  = "/tmp/socket-1b9d6bcd-bbfd-4b2d-9b5d-ab8dfbbd4bed"
  /\ SocketName.generateSocketName "linux" "."
       "1b9d6bcd-bbfd-4b2d-9b5d-ab8dfbbd4bed"
     = "socket-1b9d6bcd-bbfd-4b2d-9b5d-ab8dfbbd4bed"
  /\ ~ (forall platform tmpdir uuid : string,
          platform <> "win32" ->
          SocketName.generateSocketName platform tmpdir uuid
          = tmpdir +:+ "/socket-" +:+ uuid)
  /\ ~ (forall (platform tmpdir : string) (uuidv4 : nat -> string)
               (i j : nat),
          i <> j ->
          SocketName.nth_call platform tmpdir uuidv4 i
          <> SocketName.nth_call platform tmpdir uuidv4 j).
Proof.
  split; [reflexivity|]. split; [reflexivity|]. split.
  - intros H.
    specialize (H "linux" "." "1b9d6bcd-bbfd-4b2d-9b5d-ab8dfbbd4bed").
    discriminate H. discriminate.
  - intros H.
    apply (H "linux" "/tmp" (fun _ => "1b9d6bcd-bbfd-4b2d-9b5d-ab8dfbbd4bed")
             0%nat 1%nat); [discriminate | reflexivity].
Qed.

(** * Further properties of the code *)

(** ** [truncateToLength] *)

Lemma string_length_app s t :
  String.length (s +:+ t) = (String.length s + String.length t)%nat.
Proof.
  induction s as [|c s IH]; [reflexivity|].
  rewrite app_cons. simpl. now rewrite IH.
Qed.

Lemma length_take n s :
  String.length (JSString.take n s) = Nat.min n (String.length s).
Proof.
  revert s. induction n as [|n IH]; intros [|c s]; simpl; auto.
Qed.

Lemma truncateToLength_fits text length :
  Z.of_nat (String.length text) <= length ->
  Utils.truncateToLength text length = text.
Proof.
  intros H. unfold Utils.truncateToLength.
  destruct (Z.gtb_spec (Z.of_nat (String.length text)) length); [lia|reflexivity].
Qed.

Lemma truncateToLength_cut text length :
  length < Z.of_nat (String.length text) ->
  Utils.truncateToLength text length
  = JSString.take (Z.to_nat (length - 3)) text +:+ "...".
Proof.
  intros H. unfold Utils.truncateToLength, JSString.substr0.
  destruct (Z.gtb_spec (Z.of_nat (String.length text)) length); [reflexivity|lia].
Qed.

(** For a limit of three or more the result never exceeds the limit: a
    text within the limit is returned as it is, and a longer one is cut to
    its first [length - 3] characters followed by three dots, which makes
    exactly [length] characters. *)
Theorem truncateToLength_within_limit (text : string) (length : Z) :
  3 <= length ->
  Z.of_nat (String.length (Utils.truncateToLength text length)) <= length
  /\ (Z.of_nat (String.length text) <= length ->
      Utils.truncateToLength text length = text)
  /\ (length < Z.of_nat (String.length text) ->
      Utils.truncateToLength text length
      = JSString.take (Z.to_nat (length - 3)) text +:+ "..."
      /\ Z.of_nat (String.length (Utils.truncateToLength text length)) = length).
Proof.
  intros H3.
  assert (Hcut : length < Z.of_nat (String.length text) ->
                 Utils.truncateToLength text length
                 = JSString.take (Z.to_nat (length - 3)) text +:+ "..."
                 /\ Z.of_nat (String.length (Utils.truncateToLength text length))
                    = length).
  { intros Hlt. rewrite (truncateToLength_cut _ _ Hlt). split; [reflexivity|].
    rewrite string_length_app, length_take. simpl. lia. }
  split; [|split].
  - destruct (Z.le_gt_cases (Z.of_nat (String.length text)) length) as [Hle|Hlt].
    + now rewrite truncateToLength_fits.
    + destruct (Hcut Hlt) as [_ ->]. lia.
  - apply truncateToLength_fits.
  - exact Hcut.
Qed.

Lemma truncateToLength_within_limit_witness :
  Utils.truncateToLength "hello world" 8 = "hello..."
  /\ Utils.truncateToLength "hello" 8 = "hello".
Proof.
  destruct (truncateToLength_within_limit "hello world" 8) as (_ & _ & Hcut);
    [lia|].
  destruct (truncateToLength_within_limit "hello" 8) as (_ & Hfit & _); [lia|].
  split.
  - destruct Hcut as [-> _]; [simpl; lia | reflexivity].
  - apply Hfit. simpl. lia.
Defined.

(** For a limit below three, a text longer than the limit becomes the
    three dots alone, which is longer than the limit; with a negative
    limit this happens to every text, the empty one too. *)
Theorem truncateToLength_below_three (text : string) (length : Z) :
  length < 3 ->
  length < Z.of_nat (String.length text) ->
  Utils.truncateToLength text length = "..."
  /\ length < Z.of_nat (String.length (Utils.truncateToLength text length)).
Proof.
  intros H3 Hlt. rewrite (truncateToLength_cut _ _ Hlt).
  replace (Z.to_nat (length - 3)) with 0%nat by lia.
  split; [reflexivity | simpl; lia].
Qed.

Lemma truncateToLength_below_three_witness :
  Utils.truncateToLength "hello" 2 = "..."
  /\ Utils.truncateToLength "" (-1) = "...".
Proof.
  split.
  - apply (truncateToLength_below_three "hello" 2); simpl; lia.
  - apply (truncateToLength_below_three "" (-1)); simpl; lia.
Defined.

(** ** [escapeStringForRegex] *)

Lemma replace_first_lacks c r s :
  lacks c s = true -> JSString.replace_first c r s = s.
Proof.
  induction s as [|a s IH]; simpl; [reflexivity|].
  destruct (Ascii.eqb a c); simpl; [discriminate|].
  intros H. now rewrite IH.
Qed.

Lemma replace_first_app c r pre post :
  lacks c pre = true ->
  JSString.replace_first c r (pre +:+ String c post) = pre +:+ r +:+ post.
Proof.
  induction pre as [|a pre IH]; simpl.
  - intros _. now rewrite !app_empty_l, Ascii.eqb_refl.
  - destruct (Ascii.eqb a c) eqn:Ha; simpl; [discriminate|].
    intros H. rewrite !app_cons. simpl. now rewrite IH.
Qed.

Lemma replace_first_length c r s :
  String.length (JSString.replace_first c r s)
  = if lacks c s then String.length s
    else (String.length s + String.length r - 1)%nat.
Proof.
  induction s as [|a s IH]; simpl; [reflexivity|].
  destruct (Ascii.eqb a c); simpl.
  - rewrite string_length_app. lia.
  - rewrite IH. destruct (lacks c s) eqn:Hl; [reflexivity|].
    destruct s; simpl in *; [discriminate|lia].
Qed.

Lemma lacks_cons d a s :
  lacks d (String a s) = negb (Ascii.eqb a d) && lacks d s.
Proof. reflexivity. Qed.

(** An escape put before [c] brings in no other character [d]. *)
Lemma lacks_replace_first c d s :
  Ascii.eqb d "\" = false -> Ascii.eqb d c = false ->
  lacks d (JSString.replace_first c (String "\" (String c "")) s) = lacks d s.
Proof.
  intros Hb Hc. induction s as [|a s IH]; [reflexivity|].
  change (JSString.replace_first c (String "\" (String c "")) (String a s))
    with (if Ascii.eqb a c then String "\" (String c s)
          else String a (JSString.replace_first c (String "\" (String c "")) s)).
  destruct (Ascii.eqb_spec a c) as [->|Hne].
  - rewrite !lacks_cons, (Ascii.eqb_sym "\" d), Hb, (Ascii.eqb_sym c d), Hc.
    reflexivity.
  - now rewrite !lacks_cons, IH.
Qed.

(** Each of the three characters is escaped once at most, however many
    times it occurs: the result is longer than the string by the number of
    the three characters that occur in it, and it is the string itself
    exactly when none of them occurs. *)
Theorem escapeStringForRegex_once_each (str : string) :
  String.length (Utils.escapeStringForRegex str)
  = (String.length str
     + (if lacks "(" str then 0 else 1)
     + (if lacks ")" str then 0 else 1)
     + (if lacks "." str then 0 else 1))%nat
  /\ (Utils.escapeStringForRegex str = str
      <-> lacks "(" str = true /\ lacks ")" str = true /\ lacks "." str = true).
Proof.
  assert (Hlen : String.length (Utils.escapeStringForRegex str)
                 = (String.length str
                    + (if lacks "(" str then 0 else 1)
                    + (if lacks ")" str then 0 else 1)
                    + (if lacks "." str then 0 else 1))%nat).
  { unfold Utils.escapeStringForRegex.
    rewrite replace_first_length, !lacks_replace_first by reflexivity.
    rewrite replace_first_length, lacks_replace_first by reflexivity.
    rewrite replace_first_length. simpl String.length.
    destruct (lacks "(" str), (lacks ")" str), (lacks "." str); lia. }
  split; [exact Hlen|]. split.
  - intros Heq. rewrite Heq in Hlen.
    destruct (lacks "(" str), (lacks ")" str), (lacks "." str);
      try lia; auto.
  - intros (H1 & H2 & H3). unfold Utils.escapeStringForRegex.
    now rewrite (replace_first_lacks _ _ _ H1), (replace_first_lacks _ _ _ H2),
      (replace_first_lacks _ _ _ H3).
Qed.

(** Only the first dot is escaped: in a string without parentheses, what
    comes after the first dot is left as it is, further dots included. *)
Theorem escapeStringForRegex_first_dot_only (pre post : string) :
  lacks "." pre = true ->
  lacks "(" (pre +:+ String "." post) = true ->
  lacks ")" (pre +:+ String "." post) = true ->
  Utils.escapeStringForRegex (pre +:+ String "." post)
  = pre +:+ "\." +:+ post.
Proof.
  intros Hdot Hopen Hclose. unfold Utils.escapeStringForRegex.
  rewrite (replace_first_lacks _ _ _ Hopen), (replace_first_lacks _ _ _ Hclose).
  now apply replace_first_app.
Qed.

Lemma escapeStringForRegex_first_dot_only_witness :
  Utils.escapeStringForRegex "v8.dll.lib" = "v8\.dll.lib".
Proof.
  apply (escapeStringForRegex_first_dot_only "v8" "dll.lib"); reflexivity.
Defined.

(** ** [ensurePosixSeparators] *)

Lemma concat_cons_nonempty sep x y l :
  String.concat sep (x :: y :: l) = x +:+ sep +:+ String.concat sep (y :: l).
Proof. reflexivity. Qed.

(** Splitting at a character and joining with another one replaces the
    first by the second all over the string. *)
Lemma join_split sep t s :
  String.concat (String t "") (JS.split sep s)
  = JSString.map_chars (fun c => if Ascii.eqb c sep then t else c) s.
Proof.
  induction s as [|c s IH]; [reflexivity|].
  simpl JSString.map_chars. rewrite <- IH. simpl JS.split.
  pose proof (split_not_nil sep s) as Hne.
  destruct (Ascii.eqb c sep).
  - destruct (JS.split sep s) as [|p ps]; [easy|].
    now rewrite concat_cons_nonempty.
  - destruct (JS.split sep s) as [|p ps]; [easy|].
    destruct ps as [|q ps]; [reflexivity|].
    now rewrite !concat_cons_nonempty.
Qed.

Lemma map_chars_id f s :
  (forall c, f c = c) -> JSString.map_chars f s = s.
Proof.
  intros Hf. induction s as [|c s IH]; simpl; [reflexivity|].
  now rewrite Hf, IH.
Qed.

Lemma map_chars_length f s :
  String.length (JSString.map_chars f s) = String.length s.
Proof. induction s as [|c s IH]; simpl; [reflexivity|]. now rewrite IH. Qed.

(** Where the separator of the platform is the slash, the path comes
    back as it is: joining undoes splitting. *)
Theorem ensurePosixSeparators_posix (filePath : string) :
  Utils.ensurePosixSeparators "/" filePath = filePath.
Proof.
  unfold Utils.ensurePosixSeparators.
  change "/" with (String "/" "") at 1.
  rewrite join_split. apply map_chars_id.
  intros c. now destruct (Ascii.eqb_spec c "/").
Qed.

(** Where the separator is another character, the backslash of Windows,
    every separator becomes a slash and nothing else changes: the result
    has the length of the path, holds no separator, and is left as it is
    by a second pass. *)
Theorem ensurePosixSeparators_replaces_all (sep : ascii) (filePath : string) :
  sep <> "/"%char ->
  Utils.ensurePosixSeparators sep filePath
  = JSString.map_chars (fun c => if Ascii.eqb c sep then "/"%char else c)
      filePath
  /\ String.length (Utils.ensurePosixSeparators sep filePath)
     = String.length filePath
  /\ lacks sep (Utils.ensurePosixSeparators sep filePath) = true
  /\ Utils.ensurePosixSeparators sep
       (Utils.ensurePosixSeparators sep filePath)
     = Utils.ensurePosixSeparators sep filePath.
Proof.
  intros Hsep.
  assert (Heq : forall p, Utils.ensurePosixSeparators sep p
                = JSString.map_chars
                    (fun c => if Ascii.eqb c sep then "/"%char else c) p).
  { intros p. unfold Utils.ensurePosixSeparators.
    change "/" with (String "/" "") at 1. apply join_split. }
  assert (Hlacks : forall p, lacks sep (Utils.ensurePosixSeparators sep p) = true).
  { intros p. rewrite Heq. induction p as [|c p IH]; [reflexivity|].
    simpl. rewrite IH, andb_true_r.
    destruct (Ascii.eqb_spec c sep) as [->|Hc].
    - destruct (Ascii.eqb_spec "/" sep); [congruence|reflexivity].
    - destruct (Ascii.eqb_spec c sep); [congruence|reflexivity]. }
  split; [apply Heq|]. split; [|split].
  - rewrite Heq. apply map_chars_length.
  - apply Hlacks.
  - unfold Utils.ensurePosixSeparators at 1.
    now rewrite (first_split_lacks _ _ (Hlacks filePath)).
Qed.

Lemma ensurePosixSeparators_replaces_all_witness :
  Utils.ensurePosixSeparators "\" "docs\api\app.md" = "docs/api/app.md".
Proof.
  destruct (ensurePosixSeparators_replaces_all "\" "docs\api\app.md")
    as (-> & _); [discriminate | reflexivity].
Defined.

(** ** [slugifyHeading] *)

Lemma filter_chars_app keep s t :
  JSString.filter_chars keep (s +:+ t)
  = JSString.filter_chars keep s +:+ JSString.filter_chars keep t.
Proof.
  induction s as [|c s IH]; [reflexivity|].
  rewrite app_cons. simpl. rewrite IH. now destruct (keep c).
Qed.

Lemma map_chars_app f s t :
  JSString.map_chars f (s +:+ t)
  = JSString.map_chars f s +:+ JSString.map_chars f t.
Proof.
  induction s as [|c s IH]; [reflexivity|].
  rewrite app_cons. simpl. now rewrite IH.
Qed.

Lemma filter_chars_length keep s :
  (String.length (JSString.filter_chars keep s) <= String.length s)%nat.
Proof.
  induction s as [|c s IH]; simpl; [lia|].
  destruct (keep c); simpl; lia.
Qed.

(** A character the class keeps ends up in the alphabet of slugs. *)
Lemma slug_char_lowered c :
  Utils.slug_char c = true ->
  slug_alphabet (JSString.toLowerCase_char (Utils.space_to_dash c)) = true.
Proof.
  destruct c as [[] [] [] [] [] [] [] []]; vm_compute; congruence.
Qed.

(** A character of the alphabet of slugs goes through unchanged. *)
Lemma slug_alphabet_fixed c :
  slug_alphabet c = true ->
  Utils.slug_char c = true
  /\ JSString.toLowerCase_char (Utils.space_to_dash c) = c.
Proof.
  destruct c as [[] [] [] [] [] [] [] []]; vm_compute; intuition congruence.
Qed.

Lemma slugifyHeading_cons c heading :
  Utils.slugifyHeading (String c heading)
  = if Utils.slug_char c
    then String (JSString.toLowerCase_char (Utils.space_to_dash c))
           (Utils.slugifyHeading heading)
    else Utils.slugifyHeading heading.
Proof.
  unfold Utils.slugifyHeading, JSString.toLowerCase. simpl.
  now destruct (Utils.slug_char c).
Qed.

Lemma slugifyHeading_alphabet heading :
  all_chars slug_alphabet (Utils.slugifyHeading heading) = true.
Proof.
  induction heading as [|c heading IH]; [reflexivity|].
  rewrite slugifyHeading_cons. destruct (Utils.slug_char c) eqn:Hc; [|exact IH].
  simpl. now rewrite (slug_char_lowered _ Hc), IH.
Qed.

Lemma slugifyHeading_fixed s :
  all_chars slug_alphabet s = true -> Utils.slugifyHeading s = s.
Proof.
  induction s as [|c s IH]; [reflexivity|]. simpl.
  intros [Hc Hs]%andb_prop. rewrite slugifyHeading_cons.
  destruct (slug_alphabet_fixed _ Hc) as [-> ->]. now rewrite (IH Hs).
Qed.

(** A slug is made of small letters, digits and dashes only, and making
    the slug of a slug changes nothing. *)
Theorem slugifyHeading_alphabet_and_idempotent (heading : string) :
  all_chars slug_alphabet (Utils.slugifyHeading heading) = true
  /\ Utils.slugifyHeading (Utils.slugifyHeading heading)
     = Utils.slugifyHeading heading.
Proof.
  split.
  - apply slugifyHeading_alphabet.
  - apply slugifyHeading_fixed, slugifyHeading_alphabet.
Qed.

(** The slug of two texts put together is the two slugs put together, and
    a slug is never longer than its heading. *)
Theorem slugifyHeading_app (a b : string) :
  Utils.slugifyHeading (a +:+ b)
  = Utils.slugifyHeading a +:+ Utils.slugifyHeading b
  /\ (String.length (Utils.slugifyHeading a) <= String.length a)%nat.
Proof.
  unfold Utils.slugifyHeading, JSString.toLowerCase. split.
  - now rewrite filter_chars_app, !map_chars_app.
  - rewrite !map_chars_length. apply filter_chars_length.
Qed.

(** ** [alphabetizeByLabel] *)

Lemma lt_false_leb a b : JSString.lt b a = false <-> String.leb a b = true.
Proof.
  unfold JSString.lt, String.leb. rewrite (String.compare_antisym a b).
  destruct (String.compare b a); simpl; intuition discriminate.
Qed.

Lemma lt_asym a b : JSString.lt a b = true -> JSString.lt b a = false.
Proof.
  unfold JSString.lt. rewrite (String.compare_antisym b a).
  destruct (String.compare a b); simpl; intuition discriminate.
Qed.

Lemma lt_irrefl a : JSString.lt a a = false.
Proof.
  destruct (JSString.lt a a) eqn:H; [|reflexivity].
  now rewrite (lt_asym _ _ H) in H.
Qed.

Lemma not_lt_trans a b c :
  JSString.lt b a = false -> JSString.lt c b = false -> JSString.lt c a = false.
Proof.
  rewrite !lt_false_leb. intros H1 H2.
  apply Is_true_true. apply Is_true_true in H1, H2.
  exact (transitivity (R := String.le) H1 H2).
Qed.

Section Sorting.

Context {A : Type} (key : A -> string).

Lemma sort_insert_perm x l : Permutation (JSString.sort_insert key x l) (x :: l).
Proof.
  induction l as [|y l IH]; simpl; [reflexivity|].
  destruct (JSString.lt (key y) (key x)); [|reflexivity].
  rewrite IH. apply perm_swap.
Qed.

Lemma sort_by_perm l : Permutation (JSString.sort_by key l) l.
Proof.
  induction l as [|x l IH]; simpl; [reflexivity|].
  unfold JSString.sort_by in *. rewrite sort_insert_perm. now constructor.
Qed.

Lemma sort_insert_sorted x l :
  StronglySorted (stands_before key) l ->
  StronglySorted (stands_before key) (JSString.sort_insert key x l).
Proof.
  induction 1 as [|y l Hl IH Hy]; simpl.
  - repeat constructor.
  - destruct (JSString.lt (key y) (key x)) eqn:Hyx.
    + constructor; [exact IH|].
      rewrite sort_insert_perm. constructor; [|exact Hy].
      unfold stands_before. now apply lt_asym.
    + constructor; [now constructor|].
      constructor; [exact Hyx|].
      eapply Forall_impl; [exact Hy|].
      intros z Hz. unfold stands_before in *. now apply not_lt_trans with (key y).
Qed.

Lemma sort_by_sorted l : StronglySorted (stands_before key) (JSString.sort_by key l).
Proof.
  induction l as [|x l IH]; simpl; [constructor|].
  now apply sort_insert_sorted.
Qed.

Lemma sort_insert_filter k x l :
  List.filter (fun z => String.eqb (key z) k) (JSString.sort_insert key x l)
  = List.filter (fun z => String.eqb (key z) k) (x :: l).
Proof.
  induction l as [|y l IH]; [reflexivity|]. simpl JSString.sort_insert.
  destruct (JSString.lt (key y) (key x)) eqn:Hyx; [|reflexivity].
  simpl in *. rewrite IH.
  destruct (String.eqb_spec (key x) k) as [Hx|Hx]; [|reflexivity].
  destruct (String.eqb_spec (key y) k) as [Hy|Hy]; [|reflexivity].
  rewrite Hx, Hy, lt_irrefl in Hyx. discriminate.
Qed.

Lemma sort_by_filter k l :
  List.filter (fun z => String.eqb (key z) k) (JSString.sort_by key l)
  = List.filter (fun z => String.eqb (key z) k) l.
Proof.
  induction l as [|x l IH]; [reflexivity|].
  change (JSString.sort_by key (x :: l))
    with (JSString.sort_insert key x (JSString.sort_by key l)).
  rewrite sort_insert_filter. simpl. now rewrite IH.
Qed.

End Sorting.

(** The items come back rearranged, none lost and none added, in the
    order of their labels in lower case: no item stands before one whose
    lower-case label is below its own. *)
Theorem alphabetizeByLabel_sorted_permutation
    {TreeItem : Type} (label : TreeItem -> string) (treeItems : list TreeItem) :
  Permutation (Utils.alphabetizeByLabel label treeItems) treeItems
  /\ StronglySorted
       (stands_before (fun item => JSString.toLowerCase (label item)))
       (Utils.alphabetizeByLabel label treeItems).
Proof.
  split.
  - apply sort_by_perm.
  - apply (sort_by_sorted (fun item => JSString.toLowerCase (label item))).
Qed.

(** Items whose labels differ by case only keep the order they came in:
    for every lower-case label, the items that have it are in the result
    in the order of the argument. *)
Theorem alphabetizeByLabel_stable
    {TreeItem : Type} (label : TreeItem -> string) (treeItems : list TreeItem)
    (k : string) :
  List.filter (fun item => String.eqb (JSString.toLowerCase (label item)) k)
    (Utils.alphabetizeByLabel label treeItems)
  = List.filter (fun item => String.eqb (JSString.toLowerCase (label item)) k)
      treeItems.
Proof.
  apply (sort_by_filter (fun item => JSString.toLowerCase (label item))).
Qed.

(** ** [getConfigs] *)

Lemma config_fold_names ls acc :
  fst (fold_left Utils.config_step ls acc)
  = (fst acc
     ++ map (fun raw => JS.trim (JSString.replace_first "*" "" raw)) ls)%list.
Proof.
  revert acc. induction ls as [|raw ls IH]; intros acc; simpl.
  - now rewrite app_nil_r.
  - rewrite IH. simpl. now rewrite <- app_assoc.
Qed.

Lemma config_fold_active ls acc c :
  snd (fold_left Utils.config_step ls acc) = Some c ->
  snd acc = Some c
  \/ In c (map (fun raw => JS.trim (JSString.replace_first "*" "" raw)) ls).
Proof.
  revert acc. induction ls as [|raw ls IH]; intros acc; simpl; [auto|].
  intros H. destruct (IH _ H) as [Hacc|Hin]; [|auto].
  simpl in Hacc.
  destruct (JSString.startsWith "*" (JS.trim raw)); [|auto].
  injection Hacc as <-. auto.
Qed.

Lemma config_fold_none ls acc :
  snd (fold_left Utils.config_step ls acc) = None
  <-> snd acc = None
      /\ Forall (fun raw => JSString.startsWith "*" (JS.trim raw) = false) ls.
Proof.
  revert acc. induction ls as [|raw ls IH]; intros acc; simpl.
  - split; [intros H; split; [exact H | constructor] | now intros [H _]].
  - rewrite IH. simpl.
    destruct (JSString.startsWith "*" (JS.trim raw)) eqn:Hstar; split.
    + intros [H _]. discriminate H.
    + intros [_ H]. apply Forall_cons in H as [H _]. congruence.
    + intros [H1 H2]. split; [exact H1|]. now constructor.
    + intros [H1 H2]. apply Forall_cons in H2 as [_ H2]. now split.
Qed.

(** One name comes out for each line of the trimmed output, so there is
    always one name at least: an output that is empty or white space
    gives the one name that is the empty string, and no active
    configuration. *)
Theorem getConfigs_one_name_per_line (stdout : string) :
  length (fst (Utils.getConfigs stdout))
  = length (JS.split "010" (JS.trim stdout))
  /\ (1 <= length (fst (Utils.getConfigs stdout)))%nat
  /\ (JS.trim stdout = "" -> Utils.getConfigs stdout = ([""], None)).
Proof.
  assert (Hlen : length (fst (Utils.getConfigs stdout))
                 = length (JS.split "010" (JS.trim stdout))).
  { unfold Utils.getConfigs. rewrite config_fold_names. simpl.
    now rewrite length_map. }
  split; [exact Hlen|]. split.
  - rewrite Hlen. pose proof (split_not_nil "010" (JS.trim stdout)).
    destruct (JS.split "010" (JS.trim stdout)); [easy | simpl; lia].
  - intros H. unfold Utils.getConfigs. rewrite H. reflexivity.
Qed.

Lemma getConfigs_one_name_per_line_witness :
  Utils.getConfigs "   " = ([""], None).
Proof.
  destruct (getConfigs_one_name_per_line "   ") as (_ & _ & H).
  apply H. reflexivity.
Defined.

(** The active configuration, when there is one, is one of the names
    returned; there is none exactly when no line of the output starts,
    white space apart, with a star. *)
Theorem getConfigs_active_is_listed (stdout : string) :
  (forall c : string,
      snd (Utils.getConfigs stdout) = Some c ->
      In c (fst (Utils.getConfigs stdout)))
  /\ (snd (Utils.getConfigs stdout) = None
      <-> Forall (fun raw => JSString.startsWith "*" (JS.trim raw) = false)
            (JS.split "010" (JS.trim stdout))).
Proof.
  unfold Utils.getConfigs. split.
  - intros c H. rewrite config_fold_names. simpl.
    destruct (config_fold_active _ _ _ H) as [Hacc|Hin]; [discriminate|exact Hin].
  - rewrite config_fold_none. simpl. intuition.
Qed.

Lemma getConfigs_active_is_listed_witness :
  In "testing"
    (fst (Utils.getConfigs
            ("main" +:+ String "010" ("* testing" +:+ String "010" "release")))).
Proof.
  apply (proj1 (getConfigs_active_is_listed
                  ("main" +:+ String "010"
                     ("* testing" +:+ String "010" "release")))).
  reflexivity.
Defined.

(** ** [findCommitForPatch] *)

Lemma trimStart_head s :
  JS.trimStart s = ""
  \/ exists c rest, JS.trimStart s = String c rest /\ JS.is_white_space c = false.
Proof.
  induction s as [|c s IH]; simpl; [auto|].
  destruct (JS.is_white_space c) eqn:Hc; [exact IH|].
  right. now exists c, s.
Qed.

Lemma trimEnd_cons c s :
  JS.is_white_space c = false ->
  JS.trimEnd (String c s) = String c (JS.trimEnd s).
Proof. intros Hc. simpl. rewrite Hc. now destruct (JS.trimEnd s). Qed.

Lemma trimEnd_idempotent s : JS.trimEnd (JS.trimEnd s) = JS.trimEnd s.
Proof.
  induction s as [|c s IH]; [reflexivity|]. simpl.
  destruct (JS.trimEnd s) as [|d t] eqn:Ht.
  - destruct (JS.is_white_space c) eqn:Hc; [reflexivity|].
    simpl. now rewrite Hc.
  - change (JS.trimEnd (String c (String d t)))
      with (match JS.trimEnd (String d t) with
            | "" => if JS.is_white_space c then "" else String c ""
            | String _ _ as u => String c u
            end).
    now rewrite IH.
Qed.

(** Trimming a trimmed string changes nothing. *)
Lemma trim_idempotent s : JS.trim (JS.trim s) = JS.trim s.
Proof.
  unfold JS.trim. destruct (trimStart_head s) as [->|(c & rest & -> & Hc)].
  - reflexivity.
  - rewrite (trimEnd_cons _ _ Hc). simpl JS.trimStart. rewrite Hc.
    rewrite <- (trimEnd_cons _ _ Hc). apply trimEnd_idempotent.
Qed.

Lemma split_length_one sep s :
  length (JS.split sep s) = 1%nat <-> lacks sep s = true.
Proof.
  split.
  - induction s as [|c s IH]; [reflexivity|]. simpl.
    pose proof (split_not_nil sep s) as Hne.
    destruct (Ascii.eqb c sep); simpl.
    + destruct (JS.split sep s); [easy | discriminate].
    + destruct (JS.split sep s) as [|p ps]; [easy|]. simpl in *. exact IH.
  - intros H. now rewrite (first_split_lacks _ _ H).
Qed.

(** A commit is returned exactly when the trimmed output of [git log] is
    not empty and holds no line feed; it is the trimmed output, with no
    white space left around it. In every other case, no commit or
    several, the error is thrown. *)
Theorem findCommitForPatch_single_line (stdout : string) :
  (forall result : string,
      Utils.findCommitForPatch stdout = Some result ->
      result = JS.trim stdout /\ result <> ""
      /\ lacks "010" result = true /\ JS.trim result = result)
  /\ (Utils.findCommitForPatch stdout = None
      <-> JS.trim stdout = "" \/ lacks "010" (JS.trim stdout) = false).
Proof.
  unfold Utils.findCommitForPatch. cbv zeta.
  destruct (String.eqb_spec (JS.trim stdout) "") as [He|Hne]; simpl.
  - split; [discriminate|]. split; auto.
  - destruct (Nat.eqb_spec (length (JS.split "010" (JS.trim stdout))) 1)
      as [H1|H1]; simpl.
    + apply split_length_one in H1. split.
      * intros result [= <-]. repeat split; auto. apply trim_idempotent.
      * split; [discriminate|]. intros [H|H]; congruence.
    + split; [discriminate|]. split; [|reflexivity]. intros _. right.
      destruct (lacks "010" (JS.trim stdout)) eqn:Hl; [|reflexivity].
      apply split_length_one in Hl. contradiction.
Qed.

Lemma findCommitForPatch_single_line_witness :
  lacks "010" "1a2b3c4" = true /\ JS.trim "1a2b3c4" = "1a2b3c4".
Proof.
  destruct (findCommitForPatch_single_line (String "010" "1a2b3c4  "))
    as [H _].
  destruct (H "1a2b3c4" eq_refl) as (_ & _ & H1 & H2). now split.
Defined.

(** ** [getCheckoutDirectoryForPatchDirectory] *)

Lemma endsWith_suffix s t : JSString.endsWith s t = true <-> has_suffix s t.
Proof.
  split.
  - induction s as [|c s IH].
    + destruct t; simpl; [now exists "" | discriminate].
    + change (JSString.endsWith (String c s) t)
        with (String.eqb (String c s) t || JSString.endsWith s t).
      intros [H|H]%orb_prop.
      * apply String.eqb_eq in H. subst. now exists "".
      * destruct (IH H) as [pre ->]. now exists (String c pre).
  - intros [pre ->]. induction pre as [|c pre IH].
    + rewrite app_empty_l. destruct t as [|a t]; [reflexivity|].
      change (JSString.endsWith (String a t) (String a t))
        with (String.eqb (String a t) (String a t) || JSString.endsWith t (String a t)).
      now rewrite String.eqb_refl.
    + rewrite app_cons. simpl. rewrite IH. apply orb_true_r.
Qed.

(** The directory comes from the first entry whose tail ends the path of
    the patch directory, whatever later entries say; the error is thrown
    exactly when no tail ends the path. An entry with the empty tail takes
    every path. *)
Theorem getCheckoutDirectory_first_match
    {Uri : Type} (joinPath : Uri -> string -> Uri) (rootDirectory : Uri)
    (config : list (string * string)) (patchDirectory : string) :
  (forall uri : Uri,
      Utils.getCheckoutDirectoryForPatchDirectory joinPath rootDirectory
        config patchDirectory = Some uri ->
      exists earlier tail checkout later,
        config = (earlier ++ (tail, checkout) :: later)%list
        /\ Forall (fun entry => ~ has_suffix patchDirectory (fst entry)) earlier
        /\ has_suffix patchDirectory tail
        /\ uri = joinPath rootDirectory checkout)
  /\ (Utils.getCheckoutDirectoryForPatchDirectory joinPath rootDirectory
        config patchDirectory = None
      <-> Forall (fun entry => ~ has_suffix patchDirectory (fst entry)) config)
  /\ (forall checkout later,
        config = ("", checkout) :: later ->
        Utils.getCheckoutDirectoryForPatchDirectory joinPath rootDirectory
          config patchDirectory = Some (joinPath rootDirectory checkout)).
Proof.
  split; [|split].
  - induction config as [|[tail checkout] config IH]; simpl; [discriminate|].
    intros uri. destruct (JSString.endsWith patchDirectory tail) eqn:He.
    + intros [= <-]. exists [], tail, checkout, config.
      repeat split; [constructor | now apply endsWith_suffix].
    + intros H. destruct (IH _ H) as (earlier & t & c & later & -> & Hf & Hs & ->).
      exists ((tail, checkout) :: earlier), t, c, later.
      repeat split; auto. constructor; [|exact Hf].
      simpl. intros Hs'%endsWith_suffix. congruence.
  - induction config as [|[tail checkout] config IH]; simpl.
    + split; [constructor | reflexivity].
    + destruct (JSString.endsWith patchDirectory tail) eqn:He.
      * split; [discriminate|]. intros H. apply Forall_cons in H as [H _].
        simpl in H. apply endsWith_suffix in He. contradiction.
      * rewrite IH. split.
        -- intros H. constructor; [|exact H].
           simpl. intros Hs%endsWith_suffix. congruence.
        -- intros H. now apply Forall_cons in H as [_ H].
  - intros checkout later ->. simpl.
    assert (H : JSString.endsWith patchDirectory "" = true)
      by (apply endsWith_suffix; exists patchDirectory;
          clear; induction patchDirectory as [|c s IH];
          [reflexivity | now rewrite app_cons, <- IH]).
    now rewrite H.
Qed.

Lemma getCheckoutDirectory_first_match_witness :
  Utils.getCheckoutDirectoryForPatchDirectory (fun root dir => root +:+ "/" +:+ dir)
    "/work" [("", "src"); ("patches/v8", "src/v8")] "/work/src/electron/patches/v8"
  = Some "/work/src".
Proof.
  destruct (getCheckoutDirectory_first_match (fun root dir => root +:+ "/" +:+ dir)
              "/work" [("", "src"); ("patches/v8", "src/v8")]
              "/work/src/electron/patches/v8") as (_ & _ & H).
  apply (H "src" [("patches/v8", "src/v8")]). reflexivity.
Defined.

(** ** The busy flag *)

(** [withBusyState] hands on what the work returns or throws and leaves
    the flag off in both cases. A guarded command that the work starts
    runs its busy guard. The flag is no counter: after a nested
    [withBusyState] has returned, a guarded command that the outer work
    starts runs its callback, the outer work being still under way. *)
Theorem withBusyState_flag_is_not_nested
    {A B : Type} (workFn inner : Busy.State -> Busy.Outcome A * Busy.State)
    (busyGuard callback : Busy.State -> B * Busy.State) (st : Busy.State) :
  let busy := Busy.setBusy true (Busy.setContext true st) in
  (fst (Busy.withBusyState workFn st) = fst (workFn busy)
   /\ Busy.globalBusy (snd (Busy.withBusyState workFn st)) = false)
  /\ fst (Busy.withBusyState
            (Busy.and_then Busy.nothing
               (Busy.registerCommandNoBusy busyGuard callback)) st)
     = Busy.Returned (fst (busyGuard busy))
  /\ (forall a : A,
        fst (inner (Busy.setBusy true (Busy.setContext true busy)))
        = Busy.Returned a ->
        fst (Busy.withBusyState
               (Busy.and_then (Busy.withBusyState inner)
                  (Busy.registerCommandNoBusy busyGuard callback)) st)
        = Busy.Returned
            (fst (callback (snd (Busy.withBusyState inner busy))))).
Proof.
  intros busy. split; [|split].
  - unfold Busy.withBusyState. fold busy. now destruct (workFn busy).
  - unfold Busy.withBusyState, Busy.and_then, Busy.nothing,
      Busy.registerCommandNoBusy. fold busy. simpl.
    now destruct (busyGuard busy).
  - intros a Ha. unfold Busy.withBusyState at 1. fold busy.
    unfold Busy.and_then.
    assert (Hfst : fst (Busy.withBusyState inner busy) = Busy.Returned a).
    { unfold Busy.withBusyState.
      destruct (inner (Busy.setBusy true (Busy.setContext true busy))).
      exact Ha. }
    assert (Hoff : Busy.globalBusy (snd (Busy.withBusyState inner busy)) = false).
    { unfold Busy.withBusyState.
      now destruct (inner (Busy.setBusy true (Busy.setContext true busy))). }
    destruct (Busy.withBusyState inner busy) as [o st1]. simpl in *. subst o.
    unfold Busy.registerCommandNoBusy. rewrite Hoff.
    now destruct (callback st1).
Qed.

Lemma withBusyState_flag_witness :
  fst (Busy.withBusyState
         (Busy.and_then (Busy.withBusyState Busy.nothing)
            (Busy.registerCommandNoBusy
               (fun st => ("busy", st)) (fun st => ("ran", st))))
         {| Busy.globalBusy := false; Busy.context := [] |})
  = Busy.Returned "ran".
Proof.
  destruct (withBusyState_flag_is_not_nested Busy.nothing Busy.nothing
              (fun st => ("busy", st)) (fun st => ("ran", st))
              {| Busy.globalBusy := false; Busy.context := [] |})
    as (_ & _ & H).
  apply (H tt). reflexivity.
Defined.

(** ** Activation *)

Lemma dir_prefix_dot a dir :
  dir_prefix (String a dir +:+ String Path.sep ".") = dir_prefix (String a dir).
Proof.
  unfold dir_prefix.
  change (Path.is_absolute (String a dir +:+ String Path.sep "."))
    with (Path.is_absolute (String a dir)).
  unfold Path.kept_segments at 1.
  rewrite (split_app_sep Path.sep (String a dir) "." eq_refl), fold_left_app.
  reflexivity.
Qed.

Lemma dir_prefix_segment a dir c rest :
  c <> "."%char ->
  lacks Path.sep (String c rest) = true ->
  dir_prefix (String a dir +:+ String Path.sep (String c rest))
  = dir_prefix (String a dir) +:+ String c rest +:+ "/".
Proof.
  intros Hc Hl. unfold dir_prefix.
  change (Path.is_absolute (String a dir +:+ String Path.sep (String c rest)))
    with (Path.is_absolute (String a dir)).
  rewrite (kept_segments_app_sep _ _ _ _ Hc Hl).
  generalize (Path.kept_segments (negb (Path.is_absolute (String a dir)))
                (String a dir)) as kept.
  generalize (Path.is_absolute (String a dir)) as isAbsolute.
  intros isAbsolute kept. simpl rev.
  destruct (rev kept ++ [String c rest])%list as [|x l] eqn:Hk.
  - now destruct (rev kept).
  - rewrite <- Hk, concat_snoc. destruct (rev kept) as [|y m].
    + now destruct isAbsolute.
    + now rewrite !app_assoc_r.
Qed.

(** The two files of a workspace folder that [electronIsInWorkspace]
    looks at. *)
Lemma package_paths dir :
  Path.is_clean_dir dir = true ->
  Path.join [dir; "."; "package.json"] = dir +:+ "/package.json"
  /\ Path.join [dir; "electron"; "package.json"]
     = dir +:+ "/electron/package.json".
Proof.
  intros Hclean. pose proof (dir_prefix_clean _ Hclean) as Hprefix.
  destruct dir as [|a dir]; [discriminate|]. split.
  - change (Path.join [String a dir; "."; "package.json"])
      with (Path.normalize
              (String a dir +:+ String Path.sep "." +:+ String Path.sep "package.json")).
    rewrite <- (app_assoc_r (String a dir) (String Path.sep ".")).
    change (Path.normalize
              ((String a dir +:+ String Path.sep ".") +:+ String Path.sep "package.json"))
      with (Path.join [String a dir +:+ String Path.sep "."; "package.json"]).
    rewrite join_dir_segment by (discriminate || reflexivity).
    rewrite dir_prefix_dot, Hprefix. now rewrite app_assoc_r.
  - change (Path.join [String a dir; "electron"; "package.json"])
      with (Path.normalize
              (String a dir +:+ String Path.sep "electron"
               +:+ String Path.sep "package.json")).
    rewrite <- (app_assoc_r (String a dir) (String Path.sep "electron")).
    change (Path.normalize
              ((String a dir +:+ String Path.sep "electron")
               +:+ String Path.sep "package.json"))
      with (Path.join [String a dir +:+ String Path.sep "electron";
                       "package.json"]).
    rewrite join_dir_segment by (discriminate || reflexivity).
    rewrite dir_prefix_segment by (discriminate || reflexivity).
    rewrite Hprefix. now rewrite !app_assoc_r.
Qed.

(** For a workspace folder written in normal form, the answer comes from
    the first of [package.json] and [electron/package.json] under it that
    exists: a [package.json] at the root decides alone, also when its name
    is not electron and the one under [electron] says electron; when
    neither exists the function returns nothing. *)
Theorem electronIsInWorkspace_first_package_decides
    (fs : Activation.FileSystem) (fsPath : string) :
  Path.is_clean_dir fsPath = true ->
  let decided file :=
    match Activation.readPackage fs file with
    | Activation.Unparsable => Activation.Throw
    | Activation.Package name =>
        Activation.Return (Some (bool_decide (name = Some "electron")))
    end in
  (Activation.existsSync fs (fsPath +:+ "/package.json") = true ->
   Activation.electronIsInWorkspace fs fsPath
   = decided (fsPath +:+ "/package.json"))
  /\ (Activation.existsSync fs (fsPath +:+ "/package.json") = false ->
      Activation.existsSync fs (fsPath +:+ "/electron/package.json") = true ->
      Activation.electronIsInWorkspace fs fsPath
      = decided (fsPath +:+ "/electron/package.json"))
  /\ (Activation.existsSync fs (fsPath +:+ "/package.json") = false ->
      Activation.existsSync fs (fsPath +:+ "/electron/package.json") = false ->
      Activation.electronIsInWorkspace fs fsPath = Activation.Return None).
Proof.
  intros Hclean decided. destruct (package_paths _ Hclean) as [Hroot Helectron].
  unfold Activation.electronIsInWorkspace, Activation.search_roots.
  rewrite Hroot, Helectron. subst decided. cbv beta.
  split; [|split].
  - now intros ->.
  - now intros -> ->.
  - now intros -> ->.
Qed.

Lemma electronIsInWorkspace_witness :
  Activation.electronIsInWorkspace
    {| Activation.existsSync := fun _ => true;
       Activation.readPackage := fun file =>
         if String.eqb file "/w/package.json"
         then Activation.Package (Some "my-app")
         else Activation.Package (Some "electron") |}
    "/w"
  = Activation.Return (Some false).
Proof.
  destruct (electronIsInWorkspace_first_package_decides
              {| Activation.existsSync := fun _ => true;
                 Activation.readPackage := fun file =>
                   if String.eqb file "/w/package.json"
                   then Activation.Package (Some "my-app")
                   else Activation.Package (Some "electron") |}
              "/w" eq_refl) as [H _].
  rewrite (H eq_refl). reflexivity.
Defined.

(** [activate] registers the commands exactly when the workspace has
    folders defined: what [electronIsInWorkspace] finds plays no part, as
    the condition tests the promise and not what it settles to. *)
Theorem activate_ignores_the_check
    (fs : Activation.FileSystem) (workspaceFolders : option (list string)) :
  Activation.activate fs workspaceFolders = true <-> is_Some workspaceFolders.
Proof.
  destruct workspaceFolders as [folders|]; simpl.
  - split; [eauto | reflexivity].
  - split; [discriminate | intros [? [=]]].
Qed.

(** ** The file names and the subject of a patch *)

Lemma lines_not_nil s : JSString.lines s <> [].
Proof.
  destruct s as [|c s]; simpl; [discriminate|].
  destruct (JS.is_line_terminator c); [discriminate|].
  destruct (JSString.lines s); discriminate.
Qed.

Lemma lines_app c a b :
  JS.is_line_terminator c = true ->
  JSString.lines (a +:+ String c b)
  = (JSString.lines a ++ JSString.lines b)%list.
Proof.
  intros Hc. induction a as [|x a IH].
  - rewrite app_empty_l. simpl. now rewrite Hc.
  - rewrite app_cons. simpl. rewrite IH.
    destruct (JS.is_line_terminator x); [reflexivity|].
    pose proof (lines_not_nil a) as Hne.
    now destruct (JSString.lines a).
Qed.

Lemma lines_in_line s :
  Forall (fun piece => all_chars in_line piece = true) (JSString.lines s).
Proof.
  induction s as [|c s IH]; simpl; [now repeat constructor|].
  destruct (JS.is_line_terminator c) eqn:Hc.
  - now constructor.
  - pose proof (lines_not_nil s) as Hne.
    destruct (JSString.lines s) as [|p ps]; [easy|].
    apply Forall_cons in IH as [Hp Hps]. constructor; [|exact Hps].
    simpl. unfold in_line at 1. now rewrite Hc, Hp.
Qed.

Lemma lines_one s : all_chars in_line s = true -> JSString.lines s = [s].
Proof.
  induction s as [|c s IH]; simpl; [reflexivity|].
  unfold in_line at 1. destruct (JS.is_line_terminator c); simpl; [discriminate|].
  intros H. now rewrite (IH H).
Qed.

Lemma strip_prefix_in_line p s r :
  JS.strip_prefix p s = Some r ->
  all_chars in_line s = true -> all_chars in_line r = true.
Proof.
  revert s. induction p as [|a p IH]; intros s; simpl.
  - now intros [= ->].
  - destruct s as [|b s]; [discriminate|].
    destruct (Ascii.eqb a b); [|discriminate].
    simpl. intros H [_ Hs]%andb_prop. now apply (IH s).
Qed.

Lemma omap_strip_in_line p pieces :
  Forall (fun piece => all_chars in_line piece = true) pieces ->
  Forall (fun name => all_chars in_line name = true)
    (omap (JS.strip_prefix p) pieces).
Proof.
  induction 1 as [|piece pieces Hp _ IH]; simpl; [constructor|].
  destruct (JS.strip_prefix p piece) as [r|] eqn:Hr; [|exact IH].
  constructor; [|exact IH]. now apply (strip_prefix_in_line p piece).
Qed.

Lemma all_chars_app p a b :
  all_chars p (a +:+ b) = all_chars p a && all_chars p b.
Proof.
  induction a as [|c a IH]; [reflexivity|].
  rewrite app_cons. simpl. now rewrite IH, andb_assoc.
Qed.

Lemma omap_one {A B : Type} (f : A -> option B) x :
  omap f [x] = match f x with Some y => [y] | None => [] end.
Proof. reflexivity. Qed.

(** The file names of a patch are read line by line: a text cut at a line
    terminator gives the names of its first part and then those of its
    second part, a line made of the marker and a name gives this name, and
    no name holds a line terminator. *)
Theorem patched_filenames_by_line :
  (forall (c : ascii) (a b : string),
      JS.is_line_terminator c = true ->
      Utils.patched_filenames (a +:+ String c b)
      = (Utils.patched_filenames a ++ Utils.patched_filenames b)%list)
  /\ (forall name : string,
        all_chars in_line name = true ->
        Utils.patched_filenames ("+++ b/" +:+ name) = [name])
  /\ (forall patchContents : string,
        Forall (fun name => all_chars in_line name = true)
          (Utils.patched_filenames patchContents)).
Proof.
  unfold Utils.patched_filenames. split; [|split].
  - intros c a b Hc. now rewrite (lines_app _ _ _ Hc), omap_app.
  - intros name Hname. rewrite lines_one by exact Hname.
    now rewrite omap_one, strip_prefix_app.
  - intros patchContents. apply omap_strip_in_line, lines_in_line.
Qed.

Lemma patched_filenames_by_line_witness :
  Utils.patched_filenames
    ("--- a/shell/app.cc" +:+ String "010" ("+++ b/" +:+ "shell/app.cc"))
  = ["shell/app.cc"].
Proof.
  destruct patched_filenames_by_line as (Happ & Hone & _).
  rewrite (Happ "010"%char "--- a/shell/app.cc" ("+++ b/" +:+ "shell/app.cc")
             eq_refl).
  rewrite (Hone "shell/app.cc" eq_refl). reflexivity.
Defined.

Lemma head_omap_none {A B : Type} (f : A -> option B) l :
  head (omap f l) = None <-> Forall (fun x => f x = None) l.
Proof.
  induction l as [|x l IH]; simpl.
  - split; [constructor | reflexivity].
  - destruct (f x) eqn:Hx; simpl.
    + split; [discriminate|]. intros H. apply Forall_cons in H as [H _].
      congruence.
    + rewrite IH. split.
      * intros H. now constructor.
      * intros H. now apply Forall_cons in H as [_ H].
Qed.

(** The subject is the rest of the first line that starts with the
    subject marker, so it holds no line terminator; reading it fails
    exactly when no line of the patch starts with the marker. *)
Theorem getPatchSubjectLine_first_line (patchContents : string) :
  (Utils.getPatchSubjectLine patchContents = None
   <-> Forall (fun piece => JSString.startsWith "Subject: " piece = false)
         (JSString.lines patchContents))
  /\ (forall subject : string,
        Utils.getPatchSubjectLine patchContents = Some subject ->
        all_chars in_line subject = true)
  /\ (forall (c : ascii) (subject after : string),
        JS.is_line_terminator c = true ->
        all_chars in_line subject = true ->
        forall before : string,
          patchContents
          = before +:+ String c (("Subject: " +:+ subject) +:+ String c after) ->
          Utils.getPatchSubjectLine before = None ->
          Utils.getPatchSubjectLine patchContents = Some subject).
Proof.
  unfold Utils.getPatchSubjectLine. split; [|split].
  - rewrite head_omap_none. split; intros H;
      (eapply Forall_impl; [exact H|]); intros piece;
      unfold JSString.startsWith;
      destruct (JS.strip_prefix "Subject: " piece); congruence.
  - intros subject H.
    pose proof (omap_strip_in_line "Subject: " _ (lines_in_line patchContents))
      as Hall.
    destruct (omap (JS.strip_prefix "Subject: ") (JSString.lines patchContents))
      as [|x l]; [discriminate|].
    injection H as <-. now apply Forall_cons in Hall as [Hx _].
  - intros c subject after Hc Hsubject before -> Hbefore.
    rewrite (lines_app _ _ _ Hc), omap_app, (lines_app _ _ _ Hc), omap_app.
    destruct (omap (JS.strip_prefix "Subject: ") (JSString.lines before));
      [|discriminate].
    rewrite lines_one.
    + now rewrite omap_one, strip_prefix_app.
    + now rewrite all_chars_app, Hsubject.
Qed.

Lemma getPatchSubjectLine_witness :
  Utils.getPatchSubjectLine
    ("From: Ada <ada@example.com>"
     +:+ String "010" (("Subject: " +:+ "fix: crash on quit")
                       +:+ String "010" "Subject: not this one"))
  = Some "fix: crash on quit".
Proof.
  destruct (getPatchSubjectLine_first_line
              ("From: Ada <ada@example.com>"
               +:+ String "010" (("Subject: " +:+ "fix: crash on quit")
                                 +:+ String "010" "Subject: not this one")))
    as (_ & _ & H).
  apply (H "010"%char "fix: crash on quit" "Subject: not this one"
           eq_refl eq_refl "From: Ada <ada@example.com>"); reflexivity.
Defined.

(** ** More on the line handlers *)

Lemma on_line_baseline_max v last line :
  fst (Build.on_line v last line)
  = from_option (higher last) last (Build.parsed_percent line).
Proof.
  unfold Build.parsed_percent, higher.
  destruct (on_line_rule v last line) as [Hr|Hr Hn Hgt|Hr Hn Hgt|Hr Hn _
                                          |Hr Hn _ _|Hr Hn _ _];
    rewrite Hr; try rewrite Hn; simpl; try rewrite Hgt; reflexivity.
Qed.

Lemma highest_percent_not_above x last lines :
  JS.gt x (highest_percent last lines) = true -> JS.gt x last = true.
Proof.
  revert last. induction lines as [|l lines IH]; intros last; [easy|].
  simpl. intros H%IH.
  destruct (Build.parsed_percent l) as [bp|]; simpl in H; [|exact H].
  unfold higher in H. destruct (JS.gt bp last) eqn:Hgt; [|exact H].
  now apply gt_trans with bp.
Qed.

Lemma highest_percent_ge last lines line bp :
  In line lines -> Build.parsed_percent line = Some bp ->
  JS.gt bp (highest_percent last lines) = false.
Proof.
  revert last. induction lines as [|l lines IH]; intros last; [easy|].
  intros [->|Hin] Hbp; simpl.
  - rewrite Hbp. simpl.
    destruct (JS.gt bp (highest_percent (higher last bp) lines)) eqn:H;
      [|reflexivity].
    apply highest_percent_not_above in H. unfold higher in H.
    destruct (JS.gt bp last) eqn:Hgt; [|congruence].
    now rewrite gt_irrefl in H.
  - now apply IH.
Qed.

(** The baseline at the end of a run is the highest value the percent
    rule has parsed on its lines, or the baseline at the start when none
    is higher; so no line of the run parses to more than the final
    baseline. *)
Theorem build_baseline_is_highest_percent
    (v : Variant) (last : JS.Number) (lines : list string) :
  fst (Build.run_from v last lines) = highest_percent last lines
  /\ (forall (line : string) (bp : JS.Number),
        In line lines -> Build.parsed_percent line = Some bp ->
        JS.gt bp (fst (Build.run_from v last lines)) = false).
Proof.
  assert (H : fst (Build.run_from v last lines) = highest_percent last lines).
  { revert last. induction lines as [|line lines IH]; intros last; [reflexivity|].
    rewrite build_run_from_cons. simpl. rewrite IH.
    now rewrite on_line_baseline_max. }
  split; [exact H|].
  intros line bp Hin Hbp. rewrite H. now apply highest_percent_ge with line.
Qed.

Lemma build_baseline_witness :
  JS.gt 40 (fst (Build.run_from DirectPipe 0 ["10% 1/10"; "40% 4/10"; "25% 3/10"]))
  = false.
Proof.
  apply (proj2 (build_baseline_is_highest_percent DirectPipe 0
                  ["10% 1/10"; "40% 4/10"; "25% 3/10"]) "40% 4/10" 40).
  - simpl. auto.
  - reflexivity.
Defined.

Lemma regex_test_inv lits s :
  JS.regex_test lits s = true ->
  exists pre t, s = pre +:+ t /\ JS.match_here lits t = true.
Proof.
  induction s as [|c s IH]; simpl.
  - rewrite orb_false_r. intros H. now exists "", "".
  - intros [H|H]%orb_prop.
    + now exists "", (String c s).
    + destruct (IH H) as (pre & t & -> & Ht). now exists (String c pre), t.
Qed.

Lemma dot_star_inv k s :
  JS.dot_star k s = true -> exists p q, s = p +:+ q /\ k q = true.
Proof.
  induction s as [|c s IH]; simpl.
  - rewrite orb_false_r. intros H. now exists "", "".
  - intros [H|H]%orb_prop.
    + now exists "", (String c s).
    + apply andb_prop in H as [_ H].
      destruct (IH H) as (p & q & -> & Hq). now exists (String c p), q.
Qed.

(** A line that matches the marker of the later revision matches the
    marker of the earlier one. *)
Lemma goma_marker_weaker line :
  JS.regex_test (Build.goma_re SocketRelay) line = true ->
  JS.regex_test (Build.goma_re DirectPipe) line = true.
Proof.
  intros (pre & t & -> & Ht)%regex_test_inv. apply regex_test_skip.
  simpl Build.goma_re in *.
  change (JS.match_here ["Running"; "goma"] t)
    with (match JS.strip_prefix "Running" t with
          | None => false
          | Some r => JS.dot_star (JS.match_here ["goma"]) r
          end) in Ht.
  destruct (JS.strip_prefix "Running" t) as [r|] eqn:Hr; [|discriminate].
  apply strip_prefix_Some in Hr. subst t.
  apply regex_test_skip.
  destruct (dot_star_inv _ _ Ht) as (p & q & -> & Hq).
  now apply regex_test_skip, regex_test_here.
Qed.

(** The two revisions of the build handler differ on one kind of line
    only: where they do not make the same report, the earlier revision
    reports the start of Goma. On a line without the word goma they agree,
    and so do whole runs over such lines. *)
Theorem build_revisions_agree_but_on_goma :
  (forall (last : JS.Number) (line : string),
      Build.on_line DirectPipe last line = Build.on_line SocketRelay last line
      \/ Build.on_line DirectPipe last line
         = (last, Some (Report "Starting Goma" None)))
  /\ (forall (last : JS.Number) (line : string),
        JS.regex_test ["goma"] line = false ->
        Build.on_line DirectPipe last line
        = Build.on_line SocketRelay last line)
  /\ (forall (last : JS.Number) (lines : list string),
        Forall (fun line => JS.regex_test ["goma"] line = false) lines ->
        Build.run_from DirectPipe last lines
        = Build.run_from SocketRelay last lines).
Proof.
  assert (Hline : forall last line,
             JS.regex_test ["goma"] line = false ->
             Build.on_line DirectPipe last line
             = Build.on_line SocketRelay last line).
  { intros last line Hg. unfold Build.on_line.
    destruct (JS.regex_test (Build.goma_re SocketRelay) line) eqn:Hs.
    - apply goma_marker_weaker in Hs. simpl in Hs. congruence.
    - change (Build.goma_re DirectPipe) with ["goma"]. now rewrite Hg. }
  split; [|split].
  - intros last line.
    destruct (JS.regex_test ["goma"] line) eqn:Hg; [|left; now apply Hline].
    unfold Build.on_line. change (Build.goma_re DirectPipe) with ["goma"].
    rewrite Hg.
    destruct (JS.regex_test Build.regenerating_re line); [now left|].
    cbv zeta.
    destruct (JS.isNaN (Build.buildProgress_of line)); [now right | now left].
  - exact Hline.
  - intros last lines Hall. revert last.
    induction Hall as [|line lines Hg _ IH]; intros last; [reflexivity|].
    rewrite !build_run_from_cons, (Hline last line Hg). now rewrite IH.
Qed.

Lemma build_revisions_witness :
  Build.run_from DirectPipe 0 ["Running ninja"; "12% 6/50"]
  = Build.run_from SocketRelay 0 ["Running ninja"; "12% 6/50"].
Proof.
  destruct build_revisions_agree_but_on_goma as (_ & _ & H).
  apply H. repeat constructor.
Defined.

Lemma sync_on_line_cases ip line :
  (JS.regex_test Sync.running_patches_re line = true
   /\ Sync.on_line ip line = (ip, Some (Report "Applying Patches" None)))
  \/ (JS.regex_test Sync.running_patches_re line = false
      /\ JS.regex_test Sync.hook_took_re line = true
      /\ Sync.on_line ip line = (ip, Some (Report "Finishing Up" None)))
  \/ (is_unmarked line = true
      /\ Sync.on_line ip line
         = (true, if ip then None else Some (Report "Dependencies" None))).
Proof.
  unfold Sync.on_line, is_unmarked.
  destruct (JS.regex_test Sync.running_patches_re line); [now left|].
  destruct (JS.regex_test Sync.hook_took_re line); [right; now left|].
  right. right. now destruct ip.
Qed.

Lemma count_message_app m rs1 rs2 :
  count_message m (rs1 ++ rs2)
  = (count_message m rs1 + count_message m rs2)%nat.
Proof. unfold count_message. now rewrite List.filter_app, length_app. Qed.

Lemma sync_dependencies_count ip lines :
  count_message "Dependencies" (snd (Sync.run_from ip lines))
  = (if negb ip && existsb is_unmarked lines then 1 else 0)%nat
  /\ fst (Sync.run_from ip lines) = ip || existsb is_unmarked lines.
Proof.
  revert ip. induction lines as [|line lines IH]; intros ip.
  - simpl. rewrite andb_false_r, orb_false_r. now split.
  - rewrite sync_run_from_cons. simpl fst. simpl snd.
    rewrite count_message_app.
    destruct (sync_on_line_cases ip line)
      as [[Hr ->]|[(Hr & Hh & ->)|(Hu & ->)]]; simpl fst; simpl snd;
      destruct (IH ip) as [IH1 IH2]; destruct (IH true) as [IH3 IH4].
    + assert (Hu : is_unmarked line = false)
        by (unfold is_unmarked; now rewrite Hr).
      rewrite IH1, IH2. simpl existsb. rewrite Hu. simpl. now split.
    + assert (Hu : is_unmarked line = false)
        by (unfold is_unmarked; now rewrite Hr, Hh).
      rewrite IH1, IH2. simpl existsb. rewrite Hu. simpl. now split.
    + rewrite IH3, IH4. simpl existsb. rewrite Hu. simpl.
      destruct ip; simpl; now split.
Qed.

(** In every run of the sync handler the report "Dependencies" is made
    once when some line matches no marker and never otherwise, whatever
    the number and the order of the lines, and every line that matches the
    patch-application marker is reported as "Applying Patches". *)
Theorem sync_dependencies_at_most_once (lines : list string) :
  count_message "Dependencies" (snd (Sync.run lines))
  = (if existsb is_unmarked lines then 1 else 0)%nat
  /\ count_message "Applying Patches" (snd (Sync.run lines))
     = length (List.filter (JS.regex_test Sync.running_patches_re) lines).
Proof.
  split.
  - unfold Sync.run. now rewrite (proj1 (sync_dependencies_count false lines)).
  - unfold Sync.run.
    enough (H : forall ip,
               count_message "Applying Patches" (snd (Sync.run_from ip lines))
               = length (List.filter (JS.regex_test Sync.running_patches_re) lines))
      by apply H.
    induction lines as [|line lines IH]; intros ip; [reflexivity|].
    rewrite sync_run_from_cons. simpl fst. simpl snd.
    rewrite count_message_app. simpl List.filter.
    destruct (sync_on_line_cases ip line)
      as [[Hr ->]|[(Hr & Hh & ->)|(Hu & ->)]]; simpl fst; simpl snd.
    + rewrite Hr, IH. reflexivity.
    + rewrite Hr, IH. reflexivity.
    + unfold is_unmarked in Hu. apply andb_prop in Hu as [Hr _].
      apply negb_true_iff in Hr. rewrite Hr, IH. now destruct ip.
Qed.

(** ** The trimming in the percent rule *)

Lemma white_space_no_digit R c :
  JS.is_white_space c = true -> JS.radix_digit R c = None.
Proof.
  destruct c as [[] [] [] [] [] [] [] []]; vm_compute; congruence.
Qed.

Lemma trimEnd_white c s :
  JS.is_white_space c = true ->
  JS.trimEnd (String c s)
  = match JS.trimEnd s with
    | "" => ""
    | String _ _ as t => String c t
    end.
Proof. intros Hc. simpl. now rewrite Hc. Qed.

Lemma parse_digits_trimEnd R acc s :
  JS.parse_digits R acc (JS.trimEnd s) = JS.parse_digits R acc s.
Proof.
  revert acc. induction s as [|c s IH]; intros acc; [reflexivity|].
  destruct (JS.is_white_space c) eqn:Hc.
  - rewrite (trimEnd_white _ _ Hc).
    destruct (JS.trimEnd s); simpl; now rewrite (white_space_no_digit R c Hc).
  - rewrite (trimEnd_cons _ _ Hc). simpl.
    destruct (JS.radix_digit R c); [apply IH | reflexivity].
Qed.

Lemma strip_radix_trimEnd s :
  JS.strip_radix (JS.trimEnd s)
  = (fst (JS.strip_radix s), JS.trimEnd (snd (JS.strip_radix s))).
Proof.
  destruct s as [|a s]; [reflexivity|].
  destruct (JS.is_white_space a) eqn:Ha.
  - rewrite (trimEnd_white _ _ Ha).
    destruct a as [[] [] [] [] [] [] [] []]; try discriminate Ha;
      (destruct (JS.trimEnd s) eqn:Ht;
       [ simpl; rewrite ?Ht; reflexivity
       | simpl; rewrite Ht; reflexivity ]).
  - rewrite (trimEnd_cons _ _ Ha).
    destruct a as [[] [] [] [] [] [] [] []]; try discriminate Ha;
      try (simpl JS.strip_radix; simpl fst; simpl snd;
           rewrite (trimEnd_cons _ s) by reflexivity; reflexivity).
    destruct s as [|b s]; [reflexivity|].
    destruct (JS.is_white_space b) eqn:Hb.
    + rewrite (trimEnd_white _ _ Hb).
      destruct b as [[] [] [] [] [] [] [] []]; try discriminate Hb;
        (destruct (JS.trimEnd s) eqn:Ht;
         [ simpl; rewrite ?Ht; reflexivity
         | simpl; rewrite Ht; reflexivity ]).
    + rewrite (trimEnd_cons _ _ Hb).
      destruct b as [[] [] [] [] [] [] [] []]; try discriminate Hb;
        try reflexivity;
        (simpl JS.strip_radix; simpl fst; simpl snd;
         rewrite (trimEnd_cons _ (String _ s)) by reflexivity;
         rewrite (trimEnd_cons _ s) by reflexivity; reflexivity).
Qed.

Lemma strip_sign_trimEnd c s :
  JS.is_white_space c = false ->
  JS.strip_sign (String c (JS.trimEnd s))
  = (fst (JS.strip_sign (String c s)), JS.trimEnd (snd (JS.strip_sign (String c s)))).
Proof.
  intros Hc.
  destruct c as [[] [] [] [] [] [] [] []]; try discriminate Hc;
    try reflexivity;
    (simpl JS.strip_sign; simpl fst; simpl snd;
     rewrite (trimEnd_cons _ s) by reflexivity; reflexivity).
Qed.

Lemma parseInt_trim s : JS.parseInt (JS.trim s) = JS.parseInt s.
Proof.
  unfold JS.trim, JS.parseInt.
  destruct (trimStart_head s) as [->|(c & rest & -> & Hc)]; [reflexivity|].
  rewrite (trimEnd_cons _ _ Hc).
  assert (Hts : JS.trimStart (String c (JS.trimEnd rest))
                = String c (JS.trimEnd rest)) by (simpl; now rewrite Hc).
  rewrite Hts, (strip_sign_trimEnd _ _ Hc).
  destruct (JS.strip_sign (String c rest)) as [sign s1]. simpl fst. simpl snd.
  rewrite strip_radix_trimEnd.
  destruct (JS.strip_radix s1) as [R s2]. simpl fst. simpl snd.
  now rewrite parse_digits_trimEnd.
Qed.

(** The trimming in the percent rule changes nothing: the number the
    rule reads is what [parseInt] makes of the text before the first
    percent sign as it stands, white space around it or not. *)
Theorem buildProgress_of_without_trim (line : string) :
  Build.buildProgress_of line = JS.parseInt (JS.first (JS.split "%" line)).
Proof. unfold Build.buildProgress_of. apply parseInt_trim. Qed.

(** ** The failure message where the pipe is read *)

Lemma pipe_step_killed_flag op st sig :
  Pipe.killed (Pipe.step op st sig) = Pipe.killed st || Pipe.is_cancel sig.
Proof.
  destruct st as [k p sb lg].
  destruct sig as [msg|code|]; unfold Pipe.step, Pipe.resolve; simpl.
  - destruct p; simpl; now rewrite orb_false_r.
  - destruct (truthy code && negb k && not_zero code); destruct p; simpl;
      now rewrite orb_false_r.
  - destruct p; simpl; now rewrite orb_true_r.
Qed.

Lemma pipe_run_from_killed_flag op st sigs :
  Pipe.killed (Pipe.run_from op st sigs)
  = Pipe.killed st || existsb Pipe.is_cancel sigs.
Proof.
  revert st. induction sigs as [|sig sigs IH]; intros st; simpl.
  - now rewrite orb_false_r.
  - now rewrite IH, pipe_step_killed_flag, orb_assoc.
Qed.

(** Where the pipe is read, and for the build as for the sync, an exit
    shows the failure message with its code exactly when the code is a
    number other than zero and no cancellation was requested before it,
    whatever else came before; an exit with no code, as after a kill by a
    signal, shows nothing. *)
Theorem pipe_exit_message_unless_cancelled
    (op : Operation) (before : list Pipe.Signal) (exitCode : option Z) :
  Pipe.killed (Pipe.run op before) = existsb Pipe.is_cancel before
  /\ Pipe.log (Pipe.step op (Pipe.run op before) (Pipe.ProcessExit exitCode))
     = (Pipe.log (Pipe.run op before)
        ++ if truthy exitCode && negb (existsb Pipe.is_cancel before)
           then [ShowErrorMessage (failed_text op exitCode)]
           else [])%list.
Proof.
  assert (Hk : Pipe.killed (Pipe.run op before)
               = existsb Pipe.is_cancel before).
  { unfold Pipe.run. now rewrite pipe_run_from_killed_flag. }
  split; [exact Hk|]. rewrite <- Hk.
  destruct (Pipe.run op before) as [k p sb lg].
  unfold Pipe.step, Pipe.resolve. simpl.
  assert (Hnz : truthy exitCode && negb k && not_zero exitCode
                = truthy exitCode && negb k).
  { destruct exitCode as [n|]; simpl; [|reflexivity].
    destruct (n =? 0), k; reflexivity. }
  rewrite Hnz.
  destruct (truthy exitCode && negb k); destruct p; simpl;
    now rewrite ?app_nil_r.
Qed.
